(** * ModelManager: a shallow embedding of models/ModelManager.js

    The development follows the JavaScript class member by member.

    - JavaScript numbers are IEEE 754 binary64 values, embedded with the
      kernel-independent [spec_float] operations of the Standard Library;
      a [Float32Array] store rounds to binary32 ([JSNum.fround]).
    - The manager's fields, the file system, the pending timers and the
      calls that leave the process (sharp, onnxruntime, https) live in a
      [World]; a member function is a computation in the monad [M], which
      threads the world and may throw an [Error].  As in JavaScript the
      effects made before a [throw] survive the [catch].
    - What sharp, onnxruntime and the network answer is not decided by this
      file: an [Env] supplies those answers.
    - [console.log] / [console.error] output is not part of the embedding. *)

From Stdlib Require Import ZArith Lia.
From Stdlib Require Import Floats.SpecFloat.
From Stdlib Require Import Strings.Byte.
From stdpp Require Import base decidable option list gmap strings pretty.

(* ===================================================================== *)
(** ** JavaScript numbers *)
(* ===================================================================== *)

Module JSNum.

Definition prec : Z := 53.
Definition emax : Z := 1024.

Definition number : Type := spec_float.

Definition NaN : number := S754_nan.

(** An integer that a double holds exactly (every use here is far below
    2^53). *)
Definition of_Z (z : Z) : number := binary_normalize prec emax z 0 false.
Definition of_byte (b : byte) : number := of_Z (Z.of_N (Byte.to_N b)).

Definition sub : number → number → number := SFsub prec emax.
Definition div : number → number → number := SFdiv prec emax.

(** [x > y] and [x <= y]; both are false as soon as one side is NaN. *)
Definition gt (x y : number) : bool := SFltb y x.
Definition le (x y : number) : bool := SFleb x y.

(** The value of the decimal literal [digits / 10^k], written
    [decimal digits (10^k)]: the double nearest to the quotient, which is
    what one correctly rounded division of two exact integers returns. *)
Definition decimal (digits scale : Z) : number := div (of_Z digits) (of_Z scale).

Definition isNaN (x : number) : bool :=
  match x with S754_nan => true | _ => false end.

Definition isFinite (x : number) : bool :=
  match x with
  | S754_zero _ | S754_finite _ _ _ => true
  | S754_infinity _ | S754_nan => false
  end.

(** Storing into a [Float32Array]: round to the nearest binary32 value
    (ties to even) and read it back as a double. *)
Definition fround (x : number) : number :=
  match x with
  | S754_finite s m e =>
      match binary_normalize 24 128 (cond_Zopp s (Zpos m)) e s with
      | S754_finite s' m' e' => binary_normalize prec emax (cond_Zopp s' (Zpos m')) e' s'
      | y => y
      end
  | _ => x
  end.

Definition zero : number := S754_zero false.

(** The closed interval [0, 1]. *)
Definition in_unit_interval (x : number) : bool := le zero x && le x (of_Z 1).

End JSNum.

Import JSNum.

#[global] Instance number_inhabited : Inhabited number := populate NaN.

Declare Scope js_scope.
Delimit Scope js_scope with js.
Infix "/" := JSNum.div : js_scope.
Infix "-" := JSNum.sub : js_scope.

(* ===================================================================== *)
(** ** Data model *)
(* ===================================================================== *)

(** A thrown value; every [throw] and every rejection met by this class
    carries an [Error] object, of which only [message] is read. *)
Record Error := mkError { message : string }.

(** [ort.Tensor]. *)
Record Tensor := mkTensor {
  t_type : string;
  t_data : list number;
  t_dims : list N
}.

(** [ort.InferenceSession]: the names the graph declares and what a run
    answers for a feed. *)
Record InferenceSession := mkSession {
  inputNames : list string;
  outputNames : list string;
  run : list (string * Tensor) → Error + list (string * Tensor)
}.

(** The fields set by the constructor. *)
Record ModelManager := mkManager {
  sessionONNX : option InferenceSession;
  modelLoadAttempts : N;
  maxLoadAttempts : N;
  isLoading : bool;
  modelPath : string;
  cacheDir : string;
  cachedModelPath : string;
  localModelPath : string
}.

(** What [fs] sees at a path. *)
Inductive node :=
  | File (content : list byte)
  | Dir.

(** Who is parked on the promise of [waitForLoad]: the rest of
    [initialize] / [retryLoadModel] of a caller (it will read the status),
    or nobody (a [loadModel] started from the retry timer). *)
Inductive awaiter :=
  | StatusFor (caller : nat)
  | Detached.

Inductive callback :=
  | CbLoadModel                      (* () => this.loadModel() *)
  | CbCheckLoading (k : awaiter).    (* checkLoading of waitForLoad *)

(** Calls that leave the process. *)
Inductive event :=
  | EvSharpMetadata (path : string)
  | EvSharpRaw (path : string)
  | EvSessionCreate (path : string)
  | EvSessionRun
  | EvHttpsGet (url : option string).

Record World := mkWorld {
  this : ModelManager;
  files : gmap string node;
  now : N;                           (* the clock, in milliseconds *)
  timers : list (N * callback);      (* deadline, callback *)
  trace : list event
}.

Inductive http_outcome :=
  | ReqError (e : Error)             (* 'error' on the request *)
  | ReqTimeout                       (* the 120000 ms socket timeout fired *)
  | Response (statusCode : Z) (statusMessage : string)
             (location : option string) (body : list byte).

Record Env := mkEnv {
  (* sharp(path).metadata() *)
  sharp_metadata : string → Error + unit;
  (* sharp(path).resize(224, 224).removeAlpha().raw().toBuffer() *)
  sharp_raw : string → Error + list byte;
  (* ort.InferenceSession.create(path, ...), from what is stored at path *)
  ort_create : option node → Error + InferenceSession;
  (* https.get(url, ...) issued at a given time *)
  https_get : N → option string → http_outcome;
  (* Date.now() - startTime around session.run *)
  inference_millis : N
}.

Record Debug := mkDebug {
  rawOutput : list number;
  outputShape : list N;
  inferenceTime : N
}.

(** The object [predict] returns; [confidence] is [None] when the
    JavaScript value is [undefined]. *)
Record PredictionResult := mkResult {
  prediction : string;
  confidence : option number;
  usingDefaultPrediction : bool;
  modelSource : string;
  debug : option Debug;
  error : option string
}.

Record ModelStatus := mkStatus {
  st_isLoaded : bool;
  st_loadAttempts : N;
  st_maxAttempts : N;
  st_isLoading : bool;
  st_repository : string;
  st_modelUrl : string;
  st_modelSource : string;
  st_cached : bool;
  st_localExists : bool;
  st_inputNames : list string;
  st_outputNames : list string
}.

Record ClearResult := mkClear { success : bool; cr_message : string }.

(* ===================================================================== *)
(** ** The monad of member functions *)
(* ===================================================================== *)

Definition M (A : Type) : Type := World → (Error + A) * World.

Definition ret {A} (a : A) : M A := λ w, (inr a, w).
Definition throw {A} (e : Error) : M A := λ w, (inl e, w).
Definition bind {A B} (c : M A) (k : A → M B) : M B :=
  λ w, match c w with
       | (inr a, w') => k a w'
       | (inl e, w') => (inl e, w')
       end.
Definition try_catch {A} (c : M A) (handler : Error → M A) : M A :=
  λ w, match c w with
       | (inr a, w') => (inr a, w')
       | (inl e, w') => handler e w'
       end.

Notation "x ⇐ c ;; k" := (bind c (λ x, k))
  (at level 100, c at next level, right associativity).
Notation "c ;;; k" := (bind c (λ _, k))
  (at level 100, right associativity).

Definition get_this : M ModelManager := λ w, (inr (this w), w).
Definition set_this (f : ModelManager → ModelManager) : M unit :=
  λ w, (inr tt, mkWorld (f (this w)) (files w) (now w) (timers w) (trace w)).
Definition get_files : M (gmap string node) := λ w, (inr (files w), w).
Definition set_files (f : gmap string node → gmap string node) : M unit :=
  λ w, (inr tt, mkWorld (this w) (f (files w)) (now w) (timers w) (trace w)).
Definition get_now : M N := λ w, (inr (now w), w).
Definition emit (e : event) : M unit :=
  λ w, (inr tt, mkWorld (this w) (files w) (now w) (timers w) (trace w ++ [e])).
(** [setTimeout(cb, ms)] *)
Definition setTimeout (cb : callback) (ms : N) : M unit :=
  λ w, (inr tt, mkWorld (this w) (files w) (now w)
                        (timers w ++ [((now w + ms)%N, cb)]) (trace w)).
(** Settle with what an outside call answered. *)
Definition settle {A} (r : Error + A) : M A := λ w, (r, w).

Definition set_sessionONNX (s : InferenceSession) (m : ModelManager) : ModelManager :=
  mkManager (Some s) (modelLoadAttempts m) (maxLoadAttempts m) (isLoading m)
            (modelPath m) (cacheDir m) (cachedModelPath m) (localModelPath m).
Definition set_isLoading (b : bool) (m : ModelManager) : ModelManager :=
  mkManager (sessionONNX m) (modelLoadAttempts m) (maxLoadAttempts m) b
            (modelPath m) (cacheDir m) (cachedModelPath m) (localModelPath m).
Definition incr_modelLoadAttempts (m : ModelManager) : ModelManager :=
  mkManager (sessionONNX m) (modelLoadAttempts m + 1)%N (maxLoadAttempts m) (isLoading m)
            (modelPath m) (cacheDir m) (cachedModelPath m) (localModelPath m).

(** [for (let i = start; i < stop; i++) body] over a value that the body
    updates. *)
Definition for_range {S} (start stop : nat) (body : nat → S → S) (s : S) : S :=
  foldl (λ acc i, body i acc) s (seq start (stop - start)).

(* ===================================================================== *)
(** ** fs *)
(* ===================================================================== *)

Definition existsSync (fs : gmap string node) (path : string) : bool :=
  bool_decide (is_Some (fs !! path)).

(** [fs.unlinkSync]: removes a file, throws on a directory or on nothing. *)
Definition unlinkSync (path : string) : M unit :=
  fs ⇐ get_files ;;
  match fs !! path with
  | Some (File _) => set_files (delete path)
  | Some Dir =>
      throw (mkError ("EISDIR: illegal operation on a directory, unlink '" +:+ path +:+ "'"))
  | None =>
      throw (mkError ("ENOENT: no such file or directory, unlink '" +:+ path +:+ "'"))
  end.

(** [fs.unlink(path, () => {})]: the outcome is ignored. *)
Definition unlink_ignore (path : string) : M unit :=
  try_catch (unlinkSync path) (λ _, ret tt).

(* ===================================================================== *)
(** ** preprocessImage *)
(* ===================================================================== *)

Definition mean : list number := [decimal 485 1000; decimal 456 1000; decimal 406 1000].
Definition std : list number := [decimal 229 1000; decimal 224 1000; decimal 225 1000].

(** [buffer[k]] used as a number: [undefined] turns the arithmetic into
    NaN. *)
Definition buffer_at (buffer : list byte) (k : nat) : number :=
  match buffer !! k with
  | Some b => of_byte b
  | None => NaN
  end.

(** The body of the inner loop, lines 272-287. *)
Definition store_pixel (buffer : list byte) (totalPixels : nat) (i : nat)
    (float32Data : list number) : list number :=
  let r_raw := buffer_at buffer (i * 3 + 0) in
  let g_raw := buffer_at buffer (i * 3 + 1) in
  let b_raw := buffer_at buffer (i * 3 + 2) in
  let r_norm := ((r_raw / of_Z 255 - mean !!! 0%nat) / std !!! 0%nat)%js in
  let g_norm := ((g_raw / of_Z 255 - mean !!! 1%nat) / std !!! 1%nat)%js in
  let b_norm := ((b_raw / of_Z 255 - mean !!! 2%nat) / std !!! 2%nat)%js in
  let float32Data := <[i := fround r_norm]> float32Data in
  let float32Data := <[i + totalPixels := fround g_norm]> float32Data in
  <[i + 2 * totalPixels := fround b_norm]> float32Data.

(** [Math.ceil(a / b)] for positive integers. *)
Definition ceil_div (a b : nat) : nat := (a + b - 1) `div` b.

(** The two nested loops, lines 266-289. *)
Definition normalize_pixels (totalPixels batchSize : nat) (buffer : list byte)
    (float32Data : list number) : list number :=
  for_range 0 (ceil_div totalPixels batchSize) (λ batch float32Data,
    let startIdx := batch * batchSize in
    let endIdx := Nat.min (startIdx + batchSize) totalPixels in
    for_range startIdx endIdx (store_pixel buffer totalPixels) float32Data)
  float32Data.

Definition preprocessImage (env : Env) (imagePath : string) : M Tensor :=
  try_catch
    (emit (EvSharpMetadata imagePath) ;;;
     originalInfo ⇐ settle (sharp_metadata env imagePath) ;;
     emit (EvSharpRaw imagePath) ;;;
     buffer ⇐ settle (sharp_raw env imagePath) ;;
     let expectedSize := 224 * 224 * 3 in
     if negb (length buffer =? expectedSize) then
       throw (mkError ("Buffer size mismatch: expected " +:+ pretty expectedSize
                         +:+ ", got " +:+ pretty (length buffer)))
     else
       let float32Data := replicate (3 * 224 * 224) zero in
       let totalPixels := 224 * 224 in
       let batchSize := 1000 in
       let float32Data := normalize_pixels totalPixels batchSize buffer float32Data in
       ret (mkTensor "float32" float32Data [1; 3; 224; 224]%N))
    (λ error, throw (mkError ("Image preprocessing failed: " +:+ message error))).

(* ===================================================================== *)
(** ** validateModelInput *)
(* ===================================================================== *)

(** The argument is always a tensor built by [preprocessImage], so the
    first test ([!inputTensor || !inputTensor.data || ...]) is false. *)
Definition validateModelInput (inputTensor : Tensor) : M bool :=
  let arr := t_data inputTensor in
  let hasInvalid := existsb (λ v, negb (isFinite v) || isNaN v) arr in
  if hasInvalid then
    throw (mkError "Input tensor contains NaN or infinite values")
  else ret true.

(* ===================================================================== *)
(** ** getModelSource, getModelStatus, isModelReady *)
(* ===================================================================== *)

Definition getModelSource : M string :=
  m ⇐ get_this ;;
  fs ⇐ get_files ;;
  if existsSync fs (cachedModelPath m) then ret "huggingface_cached"
  else if existsSync fs (localModelPath m) then ret "local"
  else ret "none".

Definition getModelStatus : M ModelStatus :=
  m ⇐ get_this ;;
  fs ⇐ get_files ;;
  src ⇐ getModelSource ;;
  ret (mkStatus
         (bool_decide (is_Some (sessionONNX m)))
         (modelLoadAttempts m)
         (maxLoadAttempts m)
         (isLoading m)
         "syntichemusawu/MalariaD"
         (modelPath m)
         src
         (existsSync fs (cachedModelPath m))
         (existsSync fs (localModelPath m))
         (from_option inputNames [] (sessionONNX m))
         (from_option outputNames [] (sessionONNX m))).

Definition isModelReady : M bool :=
  m ⇐ get_this ;;
  ret (bool_decide (is_Some (sessionONNX m)) && negb (isLoading m)).

(* ===================================================================== *)
(** ** predict *)
(* ===================================================================== *)

(** Lines 399-413: the label and the confidence read off the first output
    value; [undefined > 0.5] is false. *)
Definition interpret (rawConfidence : option number) : string * option number :=
  if from_option (λ r, gt r (decimal 5 10)) false rawConfidence
  then ("Non-anemic", rawConfidence)
  else ("Anemic", rawConfidence).

(** The key a possibly undefined name becomes in an object literal or a
    property read. *)
Definition property_key (name : option string) : string :=
  from_option id "undefined" name.

(** [this.sessionONNX.<member>] throws a TypeError on [null]. *)
Definition the_session : M InferenceSession :=
  m ⇐ get_this ;;
  match sessionONNX m with
  | Some s => ret s
  | None => throw (mkError "Cannot read properties of null")
  end.

(** [results[outputName]] followed by a read of [.data] / [.dims]. *)
Definition output_tensor (results : list (string * Tensor)) (outputName : option string)
    : M Tensor :=
  match list_find (λ kv, kv.1 = property_key outputName) results with
  | Some (_, (_, t)) => ret t
  | None => throw (mkError "Cannot read properties of undefined (reading 'data')")
  end.

Definition default_prediction (err : option string) : PredictionResult :=
  mkResult "Anemic" (Some (decimal 8 10)) true "none" None err.

(** The [try] block, lines 345-432. *)
Definition predict_try (env : Env) (imagePath : string) : M PredictionResult :=
  m ⇐ get_this ;;
  match sessionONNX m with
  | None => ret (default_prediction None)
  | Some _ =>
      inputTensor ⇐ preprocessImage env imagePath ;;
      validateModelInput inputTensor ;;;
      session ⇐ the_session ;;
      let inputName := head (inputNames session) in
      let feeds := [(property_key inputName, inputTensor)] in
      session ⇐ the_session ;;
      emit EvSessionRun ;;;
      results ⇐ settle (run session feeds) ;;
      let inferenceTime := inference_millis env in
      session ⇐ the_session ;;
      let outputName := head (outputNames session) in
      outputTensor ⇐ output_tensor results outputName ;;
      let outputData := t_data outputTensor in
      let rawConfidence := head outputData in
      let '(prediction, confidence) := interpret rawConfidence in
      src ⇐ getModelSource ;;
      ret (mkResult prediction confidence false src
                    (Some (mkDebug outputData (t_dims outputTensor) inferenceTime))
                    None)
  end.

Definition predict (env : Env) (imagePath : string) : M PredictionResult :=
  try_catch (predict_try env imagePath)
    (λ error, ret (default_prediction (Some (message error)))).

(* ===================================================================== *)
(** ** downloadModel *)
(* ===================================================================== *)

(** The promise of [downloadModel]: [ret tt] is [resolve()], [throw] is
    [reject(...)].  A response is taken with its whole body; the clock does
    not move inside one call. *)

(** Lines 152-180: the request to the redirect target. *)
Definition follow_redirect (env : Env) (cached : string) (t : N)
    (redirectUrl : option string) : M unit :=
  emit (EvHttpsGet redirectUrl) ;;;
  match https_get env t redirectUrl with
  | Response _ _ _ redirectBody =>
      (* redirectResponse.pipe(file); file.on('finish', ...) *)
      set_files (<[cached := File redirectBody]>) ;;;
      ret tt
  | ReqError error =>
      unlink_ignore cached ;;;
      throw error
  | ReqTimeout =>
      throw (mkError "Download timeout (2 minutes)")
  end.

Definition downloadModel (env : Env) : M unit :=
  m ⇐ get_this ;;
  (* fs.createWriteStream(this.cachedModelPath) *)
  set_files (<[cachedModelPath m := File []]>) ;;;
  t ⇐ get_now ;;
  emit (EvHttpsGet (Some (modelPath m))) ;;;
  match https_get env t (Some (modelPath m)) with
  | Response statusCode statusMessage location body =>
      if (statusCode =? 200)%Z then
        (* response.pipe(file); file.on('finish', ...) *)
        set_files (<[cachedModelPath m := File body]>) ;;;
        ret tt
      else if (statusCode =? 302)%Z || (statusCode =? 301)%Z then
        let redirectUrl := location in
        follow_redirect env (cachedModelPath m) t redirectUrl
      else
        throw (mkError ("HTTP " +:+ pretty statusCode +:+ ": " +:+ statusMessage))
  | ReqError error =>
      unlink_ignore (cachedModelPath m) ;;;
      throw error
  | ReqTimeout =>
      throw (mkError "Download timeout (2 minutes)")
  end.

(* ===================================================================== *)
(** ** waitForLoad, loadModel *)
(* ===================================================================== *)

(** [checkLoading] of [waitForLoad]: [true] when it called [resolve()]. *)
Definition checkLoading (k : awaiter) : M bool :=
  m ⇐ get_this ;;
  if negb (isLoading m) then ret true
  else
    setTimeout (CbCheckLoading k) 100 ;;;
    ret false.

(** How far a call of an async member got when it gave the control back. *)
Inductive load_outcome :=
  | Resolved (session : option InferenceSession)   (* undefined is None *)
  | Parked.                                        (* on waitForLoad's promise *)

(** [new Promise(...)] runs [checkLoading] once at once. *)
Definition waitForLoad (k : awaiter) : M load_outcome :=
  resolved ⇐ checkLoading k ;;
  ret (if resolved then Resolved None else Parked).

Definition create_session (env : Env) (path : string) : M InferenceSession :=
  fs ⇐ get_files ;;
  emit (EvSessionCreate path) ;;;
  settle (ort_create env (fs !! path)).

(** Lines 47-48. *)
Definition loadModel_begin : M unit :=
  set_this incr_modelLoadAttempts ;;;
  set_this (set_isLoading true).

(** Lines 64-72, 83-91 and 100-107: keep the session, drop the flag,
    return the session. *)
Definition adopt_session (s : InferenceSession) : M (option InferenceSession) :=
  set_this (set_sessionONNX s) ;;;
  set_this (set_isLoading false) ;;;
  m ⇐ get_this ;;
  ret (sessionONNX m).

(** Lines 113-120: drop the flag and, while attempts remain, set the
    retry timer. *)
Definition end_without_session : M (option InferenceSession) :=
  set_this (set_isLoading false) ;;;
  m ⇐ get_this ;;
  if (modelLoadAttempts m <? maxLoadAttempts m)%N then
    setTimeout CbLoadModel 3000 ;;;
    ret None
  else ret None.

(** The [catch] block, lines 93-121. *)
Definition load_fallback (env : Env) : M (option InferenceSession) :=
  m ⇐ get_this ;;
  fs ⇐ get_files ;;
  returned ⇐
    (if existsSync fs (localModelPath m) then
       try_catch
         (s ⇐ create_session env (localModelPath m) ;;
          r ⇐ adopt_session s ;;
          ret (Some r))
         (λ fallbackError, ret None)
     else ret None) ;;
  match returned with
  | Some r => ret r
  | None => end_without_session
  end.

(** The [try] / [catch] of [loadModel], lines 52-121. *)
Definition loadModel_attempt (env : Env) : M (option InferenceSession) :=
  try_catch
    (m ⇐ get_this ;;
     fs ⇐ get_files ;;
     if existsSync fs (cachedModelPath m) then
       s ⇐ create_session env (cachedModelPath m) ;;
       adopt_session s
     else
       downloadModel env ;;;
       s ⇐ create_session env (cachedModelPath m) ;;
       adopt_session s)
    (λ error, load_fallback env).

(** The part of [loadModel] that runs before its first [await]. *)
Inductive entered :=
  | Started          (* a new attempt is under way *)
  | Waits (o : load_outcome).

Definition loadModel_enter (k : awaiter) : M entered :=
  m ⇐ get_this ;;
  if isLoading m then
    o ⇐ waitForLoad k ;;
    ret (Waits o)
  else
    loadModel_begin ;;;
    ret Started.

(** [loadModel] with its attempt run to the end in one go. *)
Definition loadModel (env : Env) (k : awaiter) : M load_outcome :=
  e ⇐ loadModel_enter k ;;
  match e with
  | Started =>
      s ⇐ loadModel_attempt env ;;
      ret (Resolved s)
  | Waits o => ret o
  end.

(* ===================================================================== *)
(** ** initialize, retryLoadModel, clearCache *)
(* ===================================================================== *)

(** What a caller gets back for now: the status, or nothing yet when the
    call is parked on [waitForLoad]. *)
Definition status_after (o : load_outcome) : M (option ModelStatus) :=
  match o with
  | Resolved _ =>
      st ⇐ getModelStatus ;;
      ret (Some st)
  | Parked => ret None
  end.

Definition make_cache_dir : M unit :=
  m ⇐ get_this ;;
  fs ⇐ get_files ;;
  if negb (existsSync fs (cacheDir m)) then set_files (<[cacheDir m := Dir]>)
  else ret tt.

Definition initialize (env : Env) (k : awaiter) : M (option ModelStatus) :=
  make_cache_dir ;;;
  o ⇐ loadModel env k ;;
  status_after o.

Definition retryLoadModel (env : Env) (k : awaiter) : M (option ModelStatus) :=
  m ⇐ get_this ;;
  if (modelLoadAttempts m <? maxLoadAttempts m)%N then
    o ⇐ loadModel env k ;;
    status_after o
  else
    st ⇐ getModelStatus ;;
    ret (Some st).

Definition clearCache : M ClearResult :=
  try_catch
    (m ⇐ get_this ;;
     fs ⇐ get_files ;;
     (if existsSync fs (cachedModelPath m) then unlinkSync (cachedModelPath m)
      else ret tt) ;;;
     ret (mkClear true "Cache cleared"))
    (λ error, ret (mkClear false (message error))).

(** The constructor; [dirname] is [__dirname]. *)
Definition path_join (a b : string) : string := a +:+ "/" +:+ b.

Definition new_ModelManager (dirname : string) : ModelManager :=
  mkManager None 0 3 false
    "https://huggingface.co/syntichemusawu/MalariaD/resolve/main/eyelid_anemia_model.onnx"
    (path_join dirname ".cache")
    (path_join (path_join dirname ".cache") "eyelid_anemia_model.onnx")
    (path_join dirname "eyelid_anemia_model.onnx").

(* ===================================================================== *)
(** ** The event loop around the manager *)
(* ===================================================================== *)

(** JavaScript runs one callback at a time, so the interleavings of
    several callers are sequences of whole callbacks.  The loop below has
    the four kinds of callback this class gives rise to: a caller entering
    [initialize()] or [retryLoadModel()], the completion of the load attempt
    in flight (download and session creation are taken as one completion,
    the flag [isLoading] being true all along), the passing of time, and a
    timer going off.  Timers go off at their deadline, the earliest first;
    completions may come at any time. *)

Inductive caller_state :=
  | AwaitsAttempt                (* its own loadModel started the attempt *)
  | Polls                        (* parked in waitForLoad *)
  | Returned (st : ModelStatus).

Record Loop := mkLoop {
  world : World;
  inflight : option awaiter;     (* who awaits the attempt in flight *)
  callers : gmap nat caller_state
}.

Inductive entry := ViaInitialize | ViaRetryLoadModel.

Inductive action :=
  | Call (c : nat) (e : entry)
  | Complete
  | Tick (t : N)
  | Fire (i : nat).

Definition park (k : awaiter) (s : caller_state) (cs : gmap nat caller_state)
    : gmap nat caller_state :=
  match k with
  | StatusFor c => <[c := s]> cs
  | Detached => cs
  end.

(** The promise of [loadModel] resolved: the caller's [await] returns and
    it reads [getModelStatus()]. *)
Definition resume (k : awaiter) (w : World) (infl : option awaiter)
    (cs : gmap nat caller_state) : Loop :=
  match k with
  | StatusFor c =>
      match getModelStatus w with
      | (inr st, w') => mkLoop w' infl (<[c := Returned st]> cs)
      | (inl _, w') => mkLoop w' infl cs
      end
  | Detached => mkLoop w infl cs
  end.

Definition after_enter (k : awaiter) (r : (Error + entered) * World)
    (infl : option awaiter) (cs : gmap nat caller_state) : Loop :=
  match r with
  | (inr Started, w) => mkLoop w (Some k) (park k AwaitsAttempt cs)
  | (inr (Waits Parked), w) => mkLoop w infl (park k Polls cs)
  | (inr (Waits (Resolved _)), w) => resume k w infl cs
  | (inl _, w) => mkLoop w infl cs
  end.

(** [retryLoadModel] up to the first [await]: [None] when the gate is
    closed and the status is returned at once. *)
Definition retry_enter (k : awaiter) : M (option entered) :=
  m ⇐ get_this ;;
  if (modelLoadAttempts m <? maxLoadAttempts m)%N then
    e ⇐ loadModel_enter k ;;
    ret (Some e)
  else ret None.

Definition set_now (t : N) (w : World) : World :=
  mkWorld (this w) (files w) t (timers w) (trace w).

Definition drop_timer (i : nat) (w : World) : World :=
  mkWorld (this w) (files w) (now w) (delete i (timers w)) (trace w).

Definition exec (env : Env) (a : action) (l : Loop) : option Loop :=
  match a with
  | Call c e =>
      match callers l !! c with
      | Some _ => None
      | None =>
          let k := StatusFor c in
          match e with
          | ViaInitialize =>
              Some (after_enter k ((make_cache_dir ;;; loadModel_enter k) (world l))
                                (inflight l) (callers l))
          | ViaRetryLoadModel =>
              match retry_enter k (world l) with
              | (inr (Some e), w) => Some (after_enter k (inr e, w) (inflight l) (callers l))
              | (_, w) => Some (resume k w (inflight l) (callers l))
              end
          end
      end
  | Complete =>
      match inflight l with
      | Some k =>
          let '(_, w) := loadModel_attempt env (world l) in
          Some (resume k w None (callers l))
      | None => None
      end
  | Tick t =>
      if bool_decide (now (world l) < t)%N
         && forallb (λ tm, (t <=? tm.1)%N) (timers (world l))
      then Some (mkLoop (set_now t (world l)) (inflight l) (callers l))
      else None
  | Fire i =>
      match timers (world l) !! i with
      | Some (d, cb) =>
          if (d <=? now (world l))%N then
            let w := drop_timer i (world l) in
            match cb with
            | CbLoadModel =>
                Some (after_enter Detached (loadModel_enter Detached w)
                                  (inflight l) (callers l))
            | CbCheckLoading k =>
                match checkLoading k w with
                | (inr true, w') => Some (resume k w' (inflight l) (callers l))
                | (_, w') => Some (mkLoop w' (inflight l) (callers l))
                end
            end
          else None
      | None => None
      end
  end.

Fixpoint run_loop (env : Env) (acts : list action) (l : Loop) : option Loop :=
  match acts with
  | [] => Some l
  | a :: acts =>
      match exec env a l with
      | Some l' => run_loop env acts l'
      | None => None
      end
  end.

Definition is_call (a : action) : bool :=
  match a with Call _ _ => true | _ => false end.

Definition polls_for (c : nat) (tm : N * callback) : bool :=
  match tm.2 with
  | CbCheckLoading (StatusFor c') => bool_decide (c' = c)
  | _ => false
  end.

Definition is_retry (tm : N * callback) : bool :=
  match tm.2 with CbLoadModel => true | _ => false end.

(* ===================================================================== *)
(** ** What the claims speak of *)
(* ===================================================================== *)

(** The published normalisation constants, by channel. *)
Definition channel_mean (c : nat) : number :=
  match c with
  | 0 => decimal 485 1000
  | 1 => decimal 456 1000
  | _ => decimal 406 1000
  end.

Definition channel_std (c : nat) : number :=
  match c with
  | 0 => decimal 229 1000
  | 1 => decimal 224 1000
  | _ => decimal 225 1000
  end.

(** [(pixel / 255 - mean[c]) / std[c]], as a float32 tensor holds it. *)
Definition normalized (c : nat) (pixel : number) : number :=
  fround ((pixel / of_Z 255 - channel_mean c) / channel_std c)%js.

(** A 2xx, a 3xx status. *)
Definition is_2xx (s : Z) : bool := (200 <=? s)%Z && (s <? 300)%Z.
Definition is_3xx (s : Z) : bool := (300 <=? s)%Z && (s <? 400)%Z.

(** The requests a trace holds. *)
Definition requests (tr : list event) : list (option string) :=
  omap (λ e, match e with EvHttpsGet u => Some u | _ => None end) tr.

(** The source tag as a function of what is on disk. *)
Definition source_tag (fs : gmap string node) (cached local : string) : string :=
  if existsSync fs cached then "huggingface_cached"
  else if existsSync fs local then "local"
  else "none".

(** The tensor made from a decoded buffer. *)
Definition tensor_of (buffer : list byte) : Tensor :=
  mkTensor "float32"
    (normalize_pixels (224 * 224) 1000 buffer (replicate (3 * 224 * 224) zero))
    [1; 3; 224; 224]%N.

(** The status a world shows. *)
Definition status_of (w : World) : ModelStatus :=
  let m := this w in
  let src := source_tag (files w) (cachedModelPath m) (localModelPath m) in
  mkStatus (bool_decide (is_Some (sessionONNX m))) (modelLoadAttempts m)
           (maxLoadAttempts m) (isLoading m) "syntichemusawu/MalariaD" (modelPath m)
           src (existsSync (files w) (cachedModelPath m))
           (existsSync (files w) (localModelPath m))
           (from_option inputNames [] (sessionONNX m))
           (from_option outputNames [] (sessionONNX m)).

Definition with_trace (w : World) (tr : list event) : World :=
  mkWorld (this w) (files w) (now w) (timers w) tr.

(** The result built on the model path from the output tensor. *)
Definition model_result (env : Env) (w : World) (outputTensor : Tensor)
    : PredictionResult :=
  mkResult (interpret (head (t_data outputTensor))).1
           (interpret (head (t_data outputTensor))).2
           false
           (source_tag (files w) (cachedModelPath (this w)) (localModelPath (this w)))
           (Some (mkDebug (t_data outputTensor) (t_dims outputTensor)
                          (inference_millis env)))
           None.

(** The [try] block once a session is there, after preprocessing. *)
Definition after_preprocess (env : Env) (w : World) (s : InferenceSession)
    (pre : (Error + Tensor) * World) : (Error + PredictionResult) * World :=
  match pre with
  | (inl e, w1) => (inl e, w1)
  | (inr tensor, w1) =>
      if existsb (λ v, negb (isFinite v) || isNaN v) (t_data tensor) then
        (inl (mkError "Input tensor contains NaN or infinite values"), w1)
      else
        let w2 := with_trace w1 (trace w1 ++ [EvSessionRun]) in
        match run s [(property_key (head (inputNames s)), tensor)] with
        | inl e => (inl e, w2)
        | inr results =>
            match list_find (λ kv, kv.1 = property_key (head (outputNames s))) results with
            | None =>
                (inl (mkError "Cannot read properties of undefined (reading 'data')"), w2)
            | Some (_, (_, outputTensor)) => (inr (model_result env w outputTensor), w2)
            end
        end
  end.

(** Two results that differ at most in the source tag. *)
Definition same_answer (r r2 : PredictionResult) : Prop :=
  prediction r2 = prediction r
  ∧ confidence r2 = confidence r
  ∧ usingDefaultPrediction r2 = usingDefaultPrediction r
  ∧ debug r2 = debug r
  ∧ error r2 = error r.

(** A step that leaves the manager's fields, the clock and the timers
    alone (it may write files and make outside calls). *)
Definition quiet (w w' : World) : Prop :=
  this w' = this w ∧ now w' = now w ∧ timers w' = timers w.

(** What an attempt that ends without a session leaves behind. *)
Definition ended_without_session (w w' : World) : Prop :=
  now w' = now w
  ∧ this w' = set_isLoading false (this w)
  ∧ timers w' =
      if (modelLoadAttempts (this w) <? maxLoadAttempts (this w))%N
      then timers w ++ [((now w + 3000)%N, CbLoadModel)]
      else timers w.

(** What an attempt that ends with the session [s] leaves behind. *)
Definition adopted (s : InferenceSession) (w w' : World) : Prop :=
  now w' = now w
  ∧ this w' = set_isLoading false (set_sessionONNX s (this w))
  ∧ timers w' = timers w.

Definition attempt_post (w : World) (r : option InferenceSession) (w' : World) : Prop :=
  match r with
  | Some s => adopted s w w'
  | None => ended_without_session w w'
  end.

(** The world after lines 47-48. *)
Definition begun (w : World) : World :=
  mkWorld (set_isLoading true (incr_modelLoadAttempts (this w)))
          (files w) (now w) (timers w) (trace w).

Definition count_timers (p : N * callback → bool) (tm : list (N * callback)) : nat :=
  length (List.filter p tm).

(** The status a caller has got back, if it has returned. *)
Definition observed (c : nat) (l : Loop) : option ModelStatus :=
  match callers l !! c with
  | Some (Returned st) => Some st
  | _ => None
  end.

(** One iteration of the inner loop writes these three values for pixel
    [i], one per channel [c]. *)
Definition channel_value (buffer : list byte) (c i : nat) : number :=
  fround ((buffer_at buffer (i * 3 + c) / of_Z 255 - mean !!! c) / std !!! c)%js.

(** The inner loop body run over the pixels 0, 1, ..., k-1 in order. *)
Definition sweep (buffer : list byte) (P : nat) (k : nat) (data : list number)
    : list number :=
  foldl (λ acc i, store_pixel buffer P i acc) data (seq 0 k).

(** The timers while the attempt of [a] is in flight, at time [t0]: no
    retry is pending, nobody polls for [a], and a poll for [b] is due
    within 100 ms. *)
Definition in_flight_timer (a b : nat) (t0 : N) (tm : N * callback) : Prop :=
  match tm.2 with
  | CbLoadModel => False
  | CbCheckLoading (StatusFor c) => c ≠ a ∧ (c = b → (tm.1 ≤ t0 + 100)%N)
  | CbCheckLoading Detached => True
  end.

(** The timers once the attempt has ended: a poll for [b] is due by [D],
    every retry after [D]. *)
Definition landed_timer (a b : nat) (D : N) (tm : N * callback) : Prop :=
  match tm.2 with
  | CbLoadModel => (D < tm.1)%N
  | CbCheckLoading (StatusFor c) => c ≠ a ∧ (c = b → (tm.1 ≤ D)%N)
  | CbCheckLoading Detached => True
  end.

(** The timers once both have returned: nobody polls for [a] or [b]. *)
Definition settled_timer (a b : nat) (tm : N * callback) : Prop :=
  match tm.2 with
  | CbCheckLoading (StatusFor c) => c ≠ a ∧ c ≠ b
  | _ => True
  end.

(** The three stages of a run in which [b] arrived while the attempt of
    [a] was in flight, [n0] being the attempt counter of that attempt. *)
Inductive Inv (a b : nat) (n0 : N) : Loop → Prop :=
  | InFlight l :
      inflight l = Some (StatusFor a) →
      isLoading (this (world l)) = true →
      modelLoadAttempts (this (world l)) = n0 →
      callers l !! a = Some AwaitsAttempt →
      callers l !! b = Some Polls →
      Forall (in_flight_timer a b (now (world l))) (timers (world l)) →
      count_timers (polls_for b) (timers (world l)) = 1 →
      Inv a b n0 l
  | Landed l D :
      inflight l = None →
      isLoading (this (world l)) = false →
      modelLoadAttempts (this (world l)) = n0 →
      callers l !! a = Some (Returned (status_of (world l))) →
      callers l !! b = Some Polls →
      (now (world l) ≤ D)%N →
      Forall (landed_timer a b D) (timers (world l)) →
      count_timers (polls_for b) (timers (world l)) = 1 →
      Inv a b n0 l
  | Settled l st :
      callers l !! a = Some (Returned st) →
      callers l !! b = Some (Returned st) →
      st_loadAttempts st = n0 →
      st_isLoading st = false →
      inflight l ≠ Some (StatusFor a) →
      inflight l ≠ Some (StatusFor b) →
      Forall (settled_timer a b) (timers (world l)) →
      Inv a b n0 l.

Arguments InFlight {a b n0} l.
Arguments Landed {a b n0} l D.
Arguments Settled {a b n0} l st.

(* ===================================================================== *)
(** ** Concrete worlds *)
(* ===================================================================== *)

Module Examples.

(** A session that answers one output tensor holding [out]. *)
Definition session_answering (out : list number) : InferenceSession :=
  mkSession ["input"] ["output"]
    (λ _, inr [("output", mkTensor "float32" out [1; 1]%N)]).

(** A decoded 224x224 RGB image, all black. *)
Definition black_image : list byte := replicate (224 * 224 * 3) x00.

(** A decoded 224x224 greyscale image: one byte per pixel. *)
Definition grey_image : list byte := replicate (224 * 224) x80.

Definition unreachable : Error := mkError "connect ECONNREFUSED".

(** sharp decodes every path to [image]; no model file can be opened;
    the network is down. *)
Definition offline (image : list byte) : Env :=
  mkEnv (λ _, inr tt) (λ _, inr image)
        (λ _, inl (mkError "Load model failed"))
        (λ _ _, ReqError unreachable) 12.

Definition fresh : World := mkWorld (new_ModelManager "/srv/models") ∅ 0 [] [].

Definition serving (out : list number) : World :=
  mkWorld (set_sessionONNX (session_answering out) (new_ModelManager "/srv/models"))
          ∅ 0 [] [].

End Examples.

Module DownloadExamples.

(** The model URL answers [first]; its redirect target answers [second]. *)
Definition answering (first second : http_outcome) : Env :=
  mkEnv (λ _, inr tt) (λ _, inr [])
        (λ _, inl (mkError "Load model failed"))
        (λ _ url, if bool_decide (url = Some (modelPath (this Examples.fresh)))
                  then first else second)
        12.

Definition model_bytes : list byte := [x08; x07; x12; x04].
Definition error_page : list byte := [x34; x30; x34].

Definition partial_content : http_outcome :=
  Response 206 "Partial Content" None model_bytes.
Definition temporary_redirect : http_outcome :=
  Response 307 "Temporary Redirect" (Some "https://cdn.example/model.onnx") [].
Definition found : http_outcome :=
  Response 302 "Found" (Some "https://cdn.example/model.onnx") [].
Definition ok : http_outcome := Response 200 "OK" None model_bytes.
Definition not_found : http_outcome := Response 404 "Not Found" None error_page.

End DownloadExamples.

Module LoadExamples.

Definition a_session : InferenceSession := Examples.session_answering [decimal 9 10].

(** Every file opens as a model. *)
Definition healthy : Env :=
  mkEnv (λ _, inr tt) (λ _, inr Examples.black_image)
        (λ file, match file with
                 | Some (File _) => inr a_session
                 | _ => inl (mkError "Load model failed")
                 end)
        (λ _ _, ReqError Examples.unreachable) 12.

(** A manager just constructed, with the model already in the cache. *)
Definition cached : World :=
  mkWorld (new_ModelManager "/srv/models")
          {[ cachedModelPath (new_ModelManager "/srv/models") := File [x08; x07] ]}
          0 [] [].

End LoadExamples.

Module FlightExamples.

Definition down : Env := Examples.offline Examples.black_image.

Definition boot : Loop := mkLoop Examples.fresh None ∅.

(** The process starts and its first attempt fails at once, which sets
    the retry timer for 3000.  At 2950 caller 1 starts the second attempt;
    at 2960 caller 2 arrives and parks. *)
Definition arrivals : list action :=
  [Call 0 ViaInitialize; Complete;
   Tick 2950; Call 1 ViaInitialize;
   Tick 2960; Call 2 ViaInitialize].

(** The second attempt fails at 2990 and caller 1 returns; the retry
    timer of the first attempt goes off at 3000 and starts the third
    attempt; the poll of caller 2 at 3060 finds the flag up again; the
    third attempt fails at 3100; the poll at 3160 returns. *)
Definition overshoot : list action :=
  [Tick 2990; Complete;
   Tick 3000; Fire 0;
   Tick 3060; Fire 0;
   Tick 3100; Complete;
   Tick 3160; Fire 1].

(** Caller 1 has just started the first attempt of a fresh manager. *)
Definition first_in_flight : Loop :=
  mkLoop (begun (mkWorld (new_ModelManager "/srv/models")
                         {[ cacheDir (new_ModelManager "/srv/models") := Dir ]}
                         0 [] []))
         (Some (StatusFor 1)) {[ 1 := AwaitsAttempt ]}.

Definition quiet_end : list action := [Tick 50; Complete; Tick 100; Fire 0].

End FlightExamples.

(* ===================================================================== *)
(** ** validateImageFile and the upload filter *)
(* ===================================================================== *)

(** The file object multer hands over; [size] may be missing. *)
Record UploadedFile := mkFile {
  f_size : option N;
  f_mimetype : string;
  f_originalname : string
}.

(** [Array.prototype.includes] on strings. *)
Definition includes (l : list string) (x : string) : bool := bool_decide (x ∈ l).

Definition allowedTypes : list string :=
  ["image/jpeg"; "image/jpg"; "image/png"; "image/gif"; "image/webp"].
Definition allowedExtensions : list string :=
  [".jpg"; ".jpeg"; ".png"; ".gif"; ".webp"].

(** [errors.push(msg)] under a test. *)
Definition push_if (test : bool) (msg : string) (errors : list string) : list string :=
  if test then errors ++ [msg] else errors.

(** ModelManager.validateImageFile, lines 445-476.  [extname] is
    [path.extname] and [toLowerCase] is [String.prototype.toLowerCase];
    a comparison with a missing size is false. *)
Definition validateImageFile (extname toLowerCase : string → string)
    (file : option UploadedFile) : list string :=
  let errors := [] in
  match file with
  | None => errors ++ ["No file provided"]
  | Some file =>
      let errors :=
        push_if (from_option (λ size, (10 * 1024 * 1024 <? size)%N) false (f_size file))
                "File size exceeds 10MB limit" errors in
      let errors :=
        push_if (from_option (λ size, (size <? 1024)%N) false (f_size file))
                "File size too small (minimum 1KB)" errors in
      let errors :=
        push_if (negb (includes allowedTypes (f_mimetype file)))
                "Invalid file type. Please upload JPEG, PNG, GIF, or WebP images only."
                errors in
      let fileExtension := toLowerCase (extname (f_originalname file)) in
      push_if (negb (includes allowedExtensions fileExtension))
              "Invalid file extension" errors
  end.

(** server.js, the [fileFilter] of multer (lines 438-453): [inr true] is
    [cb(null, true)], [inl] is [cb(new Error(...))]. *)
Definition fileFilter (extname toLowerCase : string → string) (file : option UploadedFile)
    : Error + bool :=
  let validationErrors := validateImageFile extname toLowerCase file in
  match validationErrors with
  | first :: _ => inl (mkError first)
  | [] => inr true
  end.

(** HuggingFaceModelManager.validateImageFile (part_001, lines 227-241);
    reading [file.mimetype] of a missing file throws. *)
Definition hf_validateImageFile (file : option UploadedFile) : Error + list string :=
  match file with
  | None => inl (mkError "Cannot read properties of undefined (reading 'mimetype')")
  | Some file =>
      let allowedTypes := ["image/jpeg"; "image/jpg"; "image/png"; "image/webp"] in
      let maxSize := (10 * 1024 * 1024)%N in
      let errors := [] in
      let errors :=
        push_if (negb (includes allowedTypes (f_mimetype file)))
                "Invalid file type. Please upload a JPEG, PNG, or WebP image." errors in
      let errors :=
        push_if (from_option (λ size, (maxSize <? size)%N) false (f_size file))
                "File too large. Please upload an image smaller than 10MB." errors in
      inr errors
  end.

(* ===================================================================== *)
(** ** HuggingFaceModelManager.analyzeProxyResult *)
(* ===================================================================== *)

Module JSMath.

Definition add : number → number → number := SFadd prec emax.
Definition mul : number → number → number := SFmul prec emax.
Definition abs : number → number := SFabs.

(** [Math.max(a, b)]: NaN if either is, and +0 above -0. *)
Definition max (a b : number) : number :=
  if isNaN a || isNaN b then NaN
  else if SFltb a b then b
  else if SFltb b a then a
  else match a, b with
       | S754_zero sa, S754_zero sb => S754_zero (sa && sb)
       | _, _ => a
       end.

(** [Math.min(a, b)]: NaN if either is, and -0 below +0. *)
Definition min (a b : number) : number :=
  if isNaN a || isNaN b then NaN
  else if SFltb a b then a
  else if SFltb b a then b
  else match a, b with
       | S754_zero sa, S754_zero sb => S754_zero (sa || sb)
       | _, _ => a
       end.

End JSMath.

(** [String.prototype.includes]. *)
Fixpoint str_includes (hay needle : string) : bool :=
  String.prefix needle hay
  || match hay with
     | EmptyString => false
     | String _ rest => str_includes rest needle
     end.

(** One entry of the classifier's answer; a missing score is [undefined]. *)
Record ProxyItem := mkItem {
  pi_label : option string;
  pi_score : option number
}.

Definition suggests_pallor (label : string) : bool :=
  str_includes label "pale" || str_includes label "white"
  || str_includes label "light" || str_includes label "weak".

Definition suggests_health (label : string) : bool :=
  str_includes label "red" || str_includes label "pink"
  || str_includes label "healthy" || str_includes label "normal".

(** The callback of [proxyResult.forEach], lines 190-202; [undefined] in
    the arithmetic is NaN, and [toLowerCase] of a missing label throws. *)
Definition proxy_item (toLowerCase : string → string) (anemiaScore : number)
    (item : ProxyItem) : Error + number :=
  match pi_label item with
  | None => inl (mkError "Cannot read properties of undefined (reading 'toLowerCase')")
  | Some l =>
      let label := toLowerCase l in
      let score := from_option id NaN (pi_score item) in
      if suggests_pallor label then
        inr (JSMath.add anemiaScore (JSMath.mul score (decimal 3 10)))
      else if suggests_health label then
        inr (anemiaScore - JSMath.mul score (decimal 2 10))%js
      else inr anemiaScore
  end.

Fixpoint proxy_items (toLowerCase : string → string) (anemiaScore : number)
    (items : list ProxyItem) : Error + number :=
  match items with
  | [] => inr anemiaScore
  | item :: items =>
      match proxy_item toLowerCase anemiaScore item with
      | inl e => inl e
      | inr anemiaScore => proxy_items toLowerCase anemiaScore items
      end
  end.

(** Lines 185-214; [proxyResult] is [None] when it is not an array. *)
Definition analyzeProxyResult (toLowerCase : string → string)
    (proxyResult : option (list ProxyItem)) : Error + PredictionResult :=
  match proxy_items toLowerCase (decimal 5 10) (default [] proxyResult) with
  | inl e => inl e
  | inr anemiaScore =>
      let prediction := if gt anemiaScore (decimal 55 100) then "Anemic" else "Non-anemic" in
      let confidence := JSMath.mul (JSMath.abs (anemiaScore - decimal 5 10)%js) (of_Z 2) in
      inr (mkResult prediction
             (Some (JSMath.max (decimal 6 10) (JSMath.min (decimal 9 10) confidence)))
             false "proxy_analysis" None None)
  end.

(* ===================================================================== *)
(** ** server.js: savePatientResult *)
(* ===================================================================== *)

(** The object handed to [savePatientResult]: a missing or non-string
    prediction is [None], a confidence that is not a number is [None]. *)
Record ResultInput := mkInput {
  ri_prediction : option string;
  ri_confidence : option number
}.

(** A string used as a condition. *)
Definition truthy (s : option string) : bool :=
  match s with
  | Some (String _ _) => true
  | _ => false
  end.

(** Lines 245-260: the checks made, and the two values kept, before the
    document is built and saved. *)
Definition savePatientResult_checks (username : option string) (result : ResultInput)
    : Error + (string * number) :=
  if negb (truthy (ri_prediction result)) then
    inl (mkError "Prediction is required")
  else if negb (truthy username) then
    inl (mkError "Username is required")
  else
    let safeConfidence :=
      if from_option isFinite false (ri_confidence result)
      then from_option id NaN (ri_confidence result)
      else decimal 8 10 in
    let safePrediction := default "" (ri_prediction result) in
    if negb (bool_decide (safePrediction = "Anemic"))
       && negb (bool_decide (safePrediction = "Non-anemic")) then
      inl (mkError ("Invalid prediction value: " +:+ safePrediction))
    else inr (safePrediction, safeConfidence).

(** Lines 750-754 of the /predict route: what it passes on from the
    result of [predict]. *)
Definition to_save (r : PredictionResult) : ResultInput :=
  mkInput (Some (prediction r)) (confidence r).

(* ===================================================================== *)
(** ** More words for the statements *)
(* ===================================================================== *)

(** The four tests of [validateImageFile]. *)
Definition too_large (file : UploadedFile) : bool :=
  from_option (λ size, (10 * 1024 * 1024 <? size)%N) false (f_size file).
Definition too_small (file : UploadedFile) : bool :=
  from_option (λ size, (size <? 1024)%N) false (f_size file).
Definition bad_type (file : UploadedFile) : bool :=
  negb (includes allowedTypes (f_mimetype file)).
Definition bad_extension (extname toLowerCase : string → string) (file : UploadedFile)
    : bool :=
  negb (includes allowedExtensions (toLowerCase (extname (f_originalname file)))).

(** [n] calls of [loadModel], each run to its end. *)
Fixpoint load_times (env : Env) (n : nat) (w : World) : World :=
  match n with
  | 0 => w
  | S n => load_times env n (loadModel env Detached w).2
  end.

(** The retries of a manager that nobody calls again stay within the
    maximum: while an attempt is in flight no retry is pending, and
    otherwise at most one is, and only when attempts remain. *)
Definition within_ceiling (l : Loop) : Prop :=
  let m := this (world l) in
  (modelLoadAttempts m ≤ maxLoadAttempts m)%N
  ∧ match inflight l with
    | Some _ =>
        isLoading m = true
        ∧ count_timers is_retry (timers (world l)) = 0
    | None =>
        isLoading m = false
        ∧ count_timers is_retry (timers (world l)) ≤ 1
        ∧ (count_timers is_retry (timers (world l)) = 1 →
           (modelLoadAttempts m < maxLoadAttempts m)%N)
    end.

(** No caller has been handed a status that says "loading". *)
Definition no_loading_status (l : Loop) : Prop :=
  ∀ c st, callers l !! c = Some (Returned st) → st_isLoading st = false.

Definition calls_initialize_only (a : action) : bool :=
  match a with
  | Call _ ViaRetryLoadModel => false
  | _ => true
  end.

(** What the fallback returns, as a function of the disk. *)
Definition fallback_session (env : Env) (w : World) : option InferenceSession :=
  match files w !! localModelPath (this w) with
  | Some n =>
      match ort_create env (Some n) with
      | inr s => Some s
      | inl _ => None
      end
  | None => None
  end.

Module CacheExamples.

(** Only a file with content opens as a model; the network is down. *)
Definition picky : Env :=
  mkEnv (λ _, inr tt) (λ _, inr [])
        (λ file, match file with
                 | Some (File (_ :: _)) => inr LoadExamples.a_session
                 | _ => inl (mkError "Load model failed")
                 end)
        (λ _ _, ReqError Examples.unreachable) 12.

(** An empty file at the cache path, a model at the fallback path. *)
Definition stale : World :=
  mkWorld (new_ModelManager "/srv/models")
          {[ cachedModelPath (new_ModelManager "/srv/models") := File [];
             localModelPath (new_ModelManager "/srv/models") := File [x08; x07] ]}
          0 [] [].

End CacheExamples.

(* ===================================================================== *)
(** ** Tactics *)
(* ===================================================================== *)

Ltac unfold_M :=
  unfold bind, ret, throw, try_catch, settle, emit, get_this, get_files,
    set_this, set_files, get_now, setTimeout in *.

(* ===================================================================== *)
(** ** Preprocessing: the loops *)
(* ===================================================================== *)

Section Loops.
Variable buffer : list byte.
Variable P : nat.

Lemma store_pixel_unfold i data :
  store_pixel buffer P i data =
  <[i + 2 * P := channel_value buffer 2 i]>
    (<[i + P := channel_value buffer 1 i]> (<[i := channel_value buffer 0 i]> data)).
Proof. reflexivity. Qed.

Lemma store_pixel_length i data :
  length (store_pixel buffer P i data) = length data.
Proof. rewrite store_pixel_unfold, !length_insert. reflexivity. Qed.

Lemma sweep_S k data : sweep buffer P (S k) data = store_pixel buffer P k (sweep buffer P k data).
Proof. unfold sweep. rewrite seq_S, foldl_snoc. reflexivity. Qed.

Lemma sweep_length k data : length (sweep buffer P k data) = length data.
Proof.
  induction k as [|k IH]; [reflexivity|].
  rewrite sweep_S, store_pixel_length. exact IH.
Qed.

(** After [k] iterations the first [k] slots of each plane are set. *)
Lemma sweep_lookup k data i c :
  length data = 3 * P → k ≤ P → i < k → c < 3 →
  sweep buffer P k data !! (c * P + i) = Some (channel_value buffer c i).
Proof.
  intros Hlen. induction k as [|k IH]; intros Hk Hi Hc; [lia|].
  rewrite sweep_S, store_pixel_unfold.
  assert (Hl : length (sweep buffer P k data) = 3 * P) by (rewrite sweep_length; exact Hlen).
  assert (c = 0 ∨ c = 1 ∨ c = 2) as Hcases by lia.
  destruct (decide (i = k)) as [-> | Hne].
  - destruct Hcases as [-> | [-> | ->]].
    + rewrite list_lookup_insert_ne by lia.
      rewrite list_lookup_insert_ne by lia.
      replace (0 * P + k) with k by lia.
      apply list_lookup_insert_eq. lia.
    + rewrite list_lookup_insert_ne by lia.
      replace (1 * P + k) with (k + P) by lia.
      apply list_lookup_insert_eq. rewrite length_insert. lia.
    + replace (2 * P + k) with (k + 2 * P) by lia.
      apply list_lookup_insert_eq. rewrite !length_insert. lia.
  - rewrite !list_lookup_insert_ne by (destruct Hcases as [-> | [-> | ->]]; lia).
    apply IH; lia.
Qed.

(** The batches visit 0, 1, ..., P-1 in order, each index once. *)
Lemma batches_prefix B data n :
  for_range 0 n (λ batch acc,
      for_range (batch * B) (Nat.min (batch * B + B) P) (store_pixel buffer P) acc) data
  = sweep buffer P (Nat.min (n * B) P) data.
Proof.
  unfold for_range. rewrite Nat.sub_0_r.
  induction n as [|n IH]; [reflexivity|].
  rewrite seq_S, foldl_snoc, IH. unfold sweep. rewrite <- foldl_app.
  f_equal. simpl "+".
  destruct (decide (n * B ≤ P)) as [Hle|Hgt].
  - rewrite (Nat.min_l (n * B) P) by exact Hle.
    rewrite <- seq_app. f_equal. lia.
  - rewrite (Nat.min_r (n * B) P) by lia.
    replace (Nat.min (n * B + B) P - n * B) with 0 by lia.
    rewrite app_nil_r. f_equal. lia.
Qed.

Lemma ceil_div_covers B : 0 < B → P ≤ ceil_div P B * B.
Proof.
  intros HB. unfold ceil_div.
  pose proof (Nat.div_mod (P + B - 1) B ltac:(lia)) as Hdm.
  pose proof (Nat.mod_upper_bound (P + B - 1) B ltac:(lia)) as Hmod.
  nia.
Qed.

Lemma normalize_pixels_sweep B data :
  0 < B → normalize_pixels P B buffer data = sweep buffer P P data.
Proof.
  intros HB. unfold normalize_pixels. rewrite batches_prefix.
  rewrite Nat.min_r by (apply ceil_div_covers; exact HB). reflexivity.
Qed.

Lemma normalize_pixels_length B data :
  0 < B → length (normalize_pixels P B buffer data) = length data.
Proof. intros HB. rewrite normalize_pixels_sweep by exact HB. apply sweep_length. Qed.

Lemma normalize_pixels_lookup B data i c :
  0 < B → length data = 3 * P → i < P → c < 3 →
  normalize_pixels P B buffer data !! (c * P + i) = Some (channel_value buffer c i).
Proof.
  intros HB Hlen Hi Hc. rewrite normalize_pixels_sweep by exact HB.
  apply sweep_lookup; [exact Hlen|lia|exact Hi|exact Hc].
Qed.
End Loops.

(** The code's [mean[c]] and [std[c]] are the published constants. *)
Lemma channel_value_normalized buffer i c b :
  c < 3 → buffer !! (3 * i + c) = Some b →
  channel_value buffer c i = normalized c (of_byte b).
Proof.
  intros Hc Hb. unfold channel_value, normalized, buffer_at.
  replace (i * 3 + c) with (3 * i + c) by lia. rewrite Hb.
  assert (c = 0 ∨ c = 1 ∨ c = 2) as [-> | [-> | ->]] by lia; reflexivity.
Qed.

(* ===================================================================== *)
(** ** Preprocessing: the member function *)
(* ===================================================================== *)

Lemma preprocessImage_ok env path w buffer u :
  sharp_metadata env path = inr u →
  sharp_raw env path = inr buffer →
  length buffer = 224 * 224 * 3 →
  preprocessImage env path w =
    (inr (tensor_of buffer),
     with_trace w ((trace w ++ [EvSharpMetadata path]) ++ [EvSharpRaw path])).
Proof.
  intros Hmeta Hraw Hlen. unfold preprocessImage, tensor_of. unfold_M.
  cbn [this files now timers trace].
  rewrite Hmeta, Hraw, Hlen, Nat.eqb_refl. reflexivity.
Qed.

Lemma preprocessImage_mismatch env path w buffer u :
  sharp_metadata env path = inr u →
  sharp_raw env path = inr buffer →
  length buffer ≠ 224 * 224 * 3 →
  preprocessImage env path w =
    (inl (mkError ("Image preprocessing failed: "
                   +:+ ("Buffer size mismatch: expected " +:+ pretty (224 * 224 * 3)
                        +:+ ", got " +:+ pretty (length buffer)))),
     with_trace w ((trace w ++ [EvSharpMetadata path]) ++ [EvSharpRaw path])).
Proof.
  intros Hmeta Hraw Hlen. unfold preprocessImage. unfold_M.
  cbn [this files now timers trace].
  rewrite Hmeta, Hraw.
  apply Nat.eqb_neq in Hlen. rewrite Hlen. reflexivity.
Qed.

(** Preprocessing touches nothing but the trace. *)
Lemma preprocessImage_frame env path w :
  ∃ r tr, preprocessImage env path w = (r, with_trace w (trace w ++ tr)).
Proof.
  unfold preprocessImage. unfold_M. cbn [this files now timers trace].
  destruct (sharp_metadata env path) as [e|u].
  { eexists _, [_]. reflexivity. }
  destruct (sharp_raw env path) as [e|buffer].
  { eexists _, [_; _]. rewrite <- app_assoc. reflexivity. }
  destruct (negb _).
  all: eexists _, [_; _]; rewrite <- app_assoc; reflexivity.
Qed.

(** Every normalised byte is a finite number, so a tensor made by
    [preprocessImage] passes [validateModelInput]. *)
Lemma normalized_finite c b : c < 3 → isFinite (normalized c (of_byte b)) = true.
Proof.
  intros Hc. assert (c = 0 ∨ c = 1 ∨ c = 2) as [-> | [-> | ->]] by lia.
  all: destruct b; vm_compute; reflexivity.
Qed.

Lemma normalize_pixels_all_finite buffer P B data :
  0 < B → 0 < P → length data = 3 * P → length buffer = P * 3 →
  existsb (λ v, negb (isFinite v) || isNaN v) (normalize_pixels P B buffer data) = false.
Proof.
  intros HB HP Hdata Hlen. apply not_true_is_false. intros Hex.
  apply existsb_exists in Hex as (v & Hin & Hv).
  apply list_elem_of_In, list_elem_of_lookup in Hin as [p Hp].
  pose proof (lookup_lt_Some _ _ _ Hp) as Hlt.
  rewrite normalize_pixels_length, Hdata in Hlt by exact HB.
  assert (Hpc : p = (p `div` P) * P + p `mod` P).
  { rewrite Nat.mul_comm. apply Nat.div_mod. lia. }
  assert (Hi : p `mod` P < P) by (apply Nat.mod_upper_bound; lia).
  assert (Hc : p `div` P < 3).
  { apply Nat.Div0.div_lt_upper_bound. lia. }
  rewrite Hpc in Hp.
  rewrite (normalize_pixels_lookup buffer P B _ (p `mod` P) (p `div` P)) in Hp;
    [|exact HB|exact Hdata|exact Hi|exact Hc].
  assert (Hb : is_Some (buffer !! (3 * (p `mod` P) + p `div` P))).
  { apply lookup_lt_is_Some. rewrite Hlen. lia. }
  destruct Hb as [b Hb].
  rewrite (channel_value_normalized _ _ _ b Hc Hb) in Hp.
  apply (inj Some) in Hp. subst v.
  pose proof (normalized_finite (p `div` P) b Hc) as Hfin.
  destruct (normalized (p `div` P) (of_byte b)); simpl in Hv, Hfin; congruence.
Qed.

Lemma tensor_of_data buffer :
  t_data (tensor_of buffer)
  = normalize_pixels (224 * 224) 1000 buffer (replicate (3 * 224 * 224) zero).
Proof. reflexivity. Qed.

Lemma tensor_of_finite buffer :
  length buffer = 224 * 224 * 3 →
  existsb (λ v, negb (isFinite v) || isNaN v) (t_data (tensor_of buffer)) = false.
Proof.
  intros Hlen. rewrite tensor_of_data. apply normalize_pixels_all_finite.
  - lia.
  - lia.
  - rewrite length_replicate. lia.
  - exact Hlen.
Qed.

Lemma tensor_of_length buffer : length (t_data (tensor_of buffer)) = 3 * 224 * 224.
Proof.
  rewrite tensor_of_data, normalize_pixels_length by lia. apply length_replicate.
Qed.

Lemma tensor_of_lookup buffer i c b :
  i < 224 * 224 → c < 3 → buffer !! (3 * i + c) = Some b →
  t_data (tensor_of buffer) !! (c * (224 * 224) + i) = Some (normalized c (of_byte b)).
Proof.
  intros Hi Hc Hb. rewrite tensor_of_data.
  rewrite normalize_pixels_lookup; [|lia|rewrite length_replicate; lia|exact Hi|exact Hc].
  f_equal. apply channel_value_normalized; assumption.
Qed.

(* ===================================================================== *)
(** ** predict *)
(* ===================================================================== *)

Lemma getModelSource_eq w :
  getModelSource w =
    (inr (source_tag (files w) (cachedModelPath (this w)) (localModelPath (this w))), w).
Proof.
  unfold getModelSource, source_tag. unfold_M.
  destruct (existsSync _ (cachedModelPath _)); [reflexivity|].
  destruct (existsSync _ (localModelPath _)); reflexivity.
Qed.

Lemma getModelStatus_eq w : getModelStatus w = (inr (status_of w), w).
Proof.
  unfold getModelStatus, bind at 1 2 3. unfold get_this, get_files.
  unfold bind. rewrite getModelSource_eq. reflexivity.
Qed.

Lemma predict_no_session env path w :
  sessionONNX (this w) = None →
  predict env path w = (inr (default_prediction None), w).
Proof.
  intros Hs. unfold predict, predict_try. unfold_M. rewrite Hs. reflexivity.
Qed.

(** Whatever the [try] block throws, [predict] answers the default with
    the message. *)
Lemma predict_catches env path w e w1 :
  predict_try env path w = (inl e, w1) →
  predict env path w = (inr (default_prediction (Some (message e))), w1).
Proof. intros H. unfold predict, try_catch, ret. rewrite H. reflexivity. Qed.

Lemma predict_passes env path w r w1 :
  predict_try env path w = (inr r, w1) →
  predict env path w = (inr r, w1).
Proof. intros H. unfold predict, try_catch. rewrite H. reflexivity. Qed.

Lemma predict_total env path w :
  ∃ r w', predict env path w = (inr r, w').
Proof.
  destruct (predict_try env path w) as [[e|r] w1] eqn:H.
  - eexists _, _. apply predict_catches. exact H.
  - eexists _, _. apply predict_passes. exact H.
Qed.

Lemma predict_try_stages env path w s :
  sessionONNX (this w) = Some s →
  predict_try env path w = after_preprocess env w s (preprocessImage env path w).
Proof.
  intros Hs.
  destruct (preprocessImage_frame env path w) as (r & tr & Hpre).
  rewrite Hpre. unfold after_preprocess.
  unfold predict_try, validateModelInput, the_session, output_tensor. unfold_M.
  rewrite Hs, Hpre.
  destruct r as [e|tensor]; [reflexivity|].
  destruct (existsb _ (t_data tensor)); [reflexivity|].
  repeat progress (cbn [this files now timers trace with_trace]; rewrite ?Hs).
  destruct (run s _) as [e|results]; [reflexivity|].
  repeat progress (cbn [this files now timers trace with_trace]; rewrite ?Hs).
  destruct (list_find _ results) as [[j [name outputTensor]]|]; [|reflexivity].
  unfold model_result, interpret.
  destruct (from_option _ false (head (t_data outputTensor)));
    rewrite getModelSource_eq; reflexivity.
Qed.

(** What the model path returns, from the answers of sharp and of the
    session. *)
Lemma predict_model_path env path w s u buffer results j name outputTensor :
  sessionONNX (this w) = Some s →
  sharp_metadata env path = inr u →
  sharp_raw env path = inr buffer →
  length buffer = 224 * 224 * 3 →
  run s [(property_key (head (inputNames s)), tensor_of buffer)] = inr results →
  list_find (λ kv, kv.1 = property_key (head (outputNames s))) results
    = Some (j, (name, outputTensor)) →
  ∃ w', predict env path w = (inr (model_result env w outputTensor), w').
Proof.
  intros Hs Hmeta Hraw Hlen Hrun Hfind.
  eexists. apply predict_passes.
  rewrite (predict_try_stages env path w s Hs).
  rewrite (preprocessImage_ok env path w buffer u Hmeta Hraw Hlen).
  unfold after_preprocess.
  rewrite (tensor_of_finite buffer Hlen), Hrun, Hfind. reflexivity.
Qed.

(** A result of the [try] block is the default (no session) or the model
    result. *)
Lemma predict_try_result env path w r w' :
  predict_try env path w = (inr r, w') →
  (sessionONNX (this w) = None ∧ r = default_prediction None)
  ∨ (∃ outputTensor, r = model_result env w outputTensor).
Proof.
  intros H. destruct (sessionONNX (this w)) as [s|] eqn:Hs.
  - right. rewrite (predict_try_stages env path w s Hs) in H.
    unfold after_preprocess in H.
    destruct (preprocessImage env path w) as [[e|tensor] w1]; [congruence|].
    destruct (existsb _ (t_data tensor)); [congruence|].
    destruct (run s _) as [e|results]; [congruence|].
    destruct (list_find _ results) as [[j [name outputTensor]]|]; [|congruence].
    exists outputTensor. congruence.
  - left. split; [reflexivity|].
    unfold predict_try in H. unfold_M. rewrite Hs in H. congruence.
Qed.

Lemma interpret_label raw :
  (interpret raw).1 = "Anemic" ∨ (interpret raw).1 = "Non-anemic".
Proof. unfold interpret. destruct (from_option _ false raw); [right|left]; reflexivity. Qed.

Lemma interpret_confidence raw : (interpret raw).2 = raw.
Proof. unfold interpret. destruct (from_option _ false raw); reflexivity. Qed.

Lemma black_image_length : length Examples.black_image = 224 * 224 * 3.
Proof. apply length_replicate. Qed.

Lemma grey_image_length : length Examples.grey_image ≠ 224 * 224 * 3.
Proof. unfold Examples.grey_image. rewrite length_replicate. lia. Qed.

Lemma serving_predict out path :
  ∃ w', predict (Examples.offline Examples.black_image) path (Examples.serving out)
        = (inr (model_result (Examples.offline Examples.black_image) (Examples.serving out)
                  (mkTensor "float32" out [1; 1]%N)), w').
Proof.
  apply (predict_model_path (Examples.offline Examples.black_image) path (Examples.serving out)
            (Examples.session_answering out) tt Examples.black_image
            [("output", mkTensor "float32" out [1; 1]%N)] 0 "output").
  - reflexivity.
  - reflexivity.
  - reflexivity.
  - exact black_image_length.
  - reflexivity.
  - reflexivity.
Qed.

(* ===================================================================== *)
(** ** The predictor facade *)
(* ===================================================================== *)


(** C2. On the model path the label is Non-anemic when the raw score (the
    first value of the first output) is strictly above 0.5 and Anemic
    otherwise, and the confidence is the raw score itself in both branches,
    never one minus it.  At 0.50001 and 0.49999 the labels differ. *)
Theorem predict_decision_rule env path w s u buffer results j name outputTensor raw rest :
  sessionONNX (this w) = Some s →
  sharp_metadata env path = inr u →
  sharp_raw env path = inr buffer →
  length buffer = 224 * 224 * 3 →
  run s [(property_key (head (inputNames s)), tensor_of buffer)] = inr results →
  list_find (λ kv, kv.1 = property_key (head (outputNames s))) results
    = Some (j, (name, outputTensor)) →
  t_data outputTensor = raw :: rest →
  (∃ r w', predict env path w = (inr r, w')
     ∧ prediction r = (if gt raw (decimal 5 10) then "Non-anemic" else "Anemic")
     ∧ confidence r = Some raw
     ∧ usingDefaultPrediction r = false)
  ∧ interpret (Some (decimal 50001 100000))
      = ("Non-anemic", Some (decimal 50001 100000))
  ∧ interpret (Some (decimal 49999 100000))
      = ("Anemic", Some (decimal 49999 100000)).
Proof.
  intros Hs Hmeta Hraw Hlen Hrun Hfind Hdata.
  split; [|split; vm_compute; reflexivity].
  destruct (predict_model_path env path w s u buffer results j name outputTensor
              Hs Hmeta Hraw Hlen Hrun Hfind) as [w' Hp].
  exists (model_result env w outputTensor), w'.
  split; [exact Hp|].
  unfold model_result. cbn [prediction confidence usingDefaultPrediction].
  rewrite Hdata. cbn [head]. unfold interpret. cbn [from_option].
  destruct (gt raw (decimal 5 10)); auto.
Qed.

Lemma predict_decision_rule_witness :
  ∃ r w', predict (Examples.offline Examples.black_image) "eyelid.jpg"
            (Examples.serving [decimal 1 10]) = (inr r, w')
     ∧ prediction r = "Anemic"
     ∧ confidence r = Some (decimal 1 10)
     ∧ usingDefaultPrediction r = false.
Proof.
  destruct (predict_decision_rule
              (Examples.offline Examples.black_image) "eyelid.jpg"
              (Examples.serving [decimal 1 10])
              (Examples.session_answering [decimal 1 10]) tt Examples.black_image
              [("output", mkTensor "float32" [decimal 1 10] [1; 1]%N)] 0 "output"
              (mkTensor "float32" [decimal 1 10] [1; 1]%N) (decimal 1 10) [])
    as [(r & w' & Hp & Hl & Hc & Hd) _].
  - reflexivity.
  - reflexivity.
  - reflexivity.
  - exact black_image_length.
  - reflexivity.
  - reflexivity.
  - reflexivity.
  - exists r, w'. split; [exact Hp|]. split; [|split; assumption].
    rewrite Hl. vm_compute. reflexivity.
Defined.

(* ===================================================================== *)
(** ** The preprocessing pipeline *)
(* ===================================================================== *)

(** C3. For a decoded buffer of exactly 224*224*3 bytes, preprocessing
    returns a float32 tensor of shape [1, 3, 224, 224] and of 3*224*224
    values in channel-planar order: the value at c*224*224 + i is
    (buffer[3*i + c] / 255 - mean[c]) / std[c], as the float32 tensor holds
    it, with mean = (0.485, 0.456, 0.406) and std = (0.229, 0.224, 0.225);
    red fills the first plane, green the second, blue the third. *)
Theorem preprocessImage_layout env path w u buffer :
  sharp_metadata env path = inr u →
  sharp_raw env path = inr buffer →
  length buffer = 224 * 224 * 3 →
  ∃ tensor w',
    preprocessImage env path w = (inr tensor, w')
    ∧ t_type tensor = "float32"
    ∧ t_dims tensor = [1; 3; 224; 224]%N
    ∧ length (t_data tensor) = 3 * 224 * 224
    ∧ ∀ i c, i < 224 * 224 → c < 3 →
        ∃ b, buffer !! (3 * i + c) = Some b
           ∧ t_data tensor !! (c * (224 * 224) + i)
             = Some (fround ((of_byte b / of_Z 255
                              - nth c [decimal 485 1000; decimal 456 1000; decimal 406 1000] NaN)
                             / nth c [decimal 229 1000; decimal 224 1000; decimal 225 1000] NaN)%js).
Proof.
  intros Hmeta Hraw Hlen.
  eexists (tensor_of buffer), _.
  split; [exact (preprocessImage_ok env path w buffer u Hmeta Hraw Hlen)|].
  split; [reflexivity|]. split; [reflexivity|].
  split; [apply tensor_of_length|].
  intros i c Hi Hc.
  assert (Hb : is_Some (buffer !! (3 * i + c))).
  { apply lookup_lt_is_Some. rewrite Hlen. lia. }
  destruct Hb as [b Hb]. exists b. split; [exact Hb|].
  rewrite (tensor_of_lookup buffer i c b Hi Hc Hb). unfold normalized.
  assert (c = 0 ∨ c = 1 ∨ c = 2) as [-> | [-> | ->]] by lia; reflexivity.
Qed.

Lemma preprocessImage_layout_witness :
  ∃ tensor w',
    preprocessImage (Examples.offline Examples.black_image) "eyelid.jpg" Examples.fresh
      = (inr tensor, w')
    ∧ t_dims tensor = [1; 3; 224; 224]%N
    ∧ length (t_data tensor) = 3 * 224 * 224
    ∧ t_data tensor !! (2 * (224 * 224) + 7)
      = Some (fround ((of_byte x00 / of_Z 255 - decimal 406 1000) / decimal 225 1000)%js).
Proof.
  destruct (preprocessImage_layout (Examples.offline Examples.black_image)
              "eyelid.jpg" Examples.fresh tt Examples.black_image)
    as (tensor & w' & Hp & _ & Hd & Hl & Hat).
  - reflexivity.
  - reflexivity.
  - exact black_image_length.
  - exists tensor, w'. split; [exact Hp|]. split; [exact Hd|]. split; [exact Hl|].
    destruct (Hat 7 2) as (b & Hb & Hv); [lia|lia|].
    unfold Examples.black_image in Hb.
    apply lookup_replicate in Hb as [-> _]. exact Hv.
Defined.

Lemma pretty_expected_size : pretty (224 * 224 * 3) = "150528".
Proof. vm_compute. reflexivity. Qed.

(** C4. A decoded buffer whose length is not 224*224*3 = 150528 makes
    preprocessing throw: no tensor comes out, truncated, padded or
    otherwise.  The error names the two sizes. *)
Theorem preprocessImage_rejects_size env path w u buffer :
  sharp_metadata env path = inr u →
  sharp_raw env path = inr buffer →
  length buffer ≠ 224 * 224 * 3 →
  ∃ e w',
    preprocessImage env path w = (inl e, w')
    ∧ message e = "Image preprocessing failed: Buffer size mismatch: expected 150528, got "
                  +:+ pretty (length buffer)
    ∧ this w' = this w ∧ files w' = files w.
Proof.
  intros Hmeta Hraw Hlen. eexists _, _.
  split.
  - exact (preprocessImage_mismatch env path w buffer u Hmeta Hraw Hlen).
  - cbn [message with_trace this files]. rewrite pretty_expected_size.
    split; [reflexivity|]. split; reflexivity.
Qed.

Lemma preprocessImage_rejects_size_witness :
  ∃ e w',
    preprocessImage (Examples.offline Examples.grey_image) "eyelid.jpg" Examples.fresh
      = (inl e, w')
    ∧ message e = "Image preprocessing failed: Buffer size mismatch: expected 150528, got 50176".
Proof.
  destruct (preprocessImage_rejects_size (Examples.offline Examples.grey_image)
              "eyelid.jpg" Examples.fresh tt Examples.grey_image)
    as (e & w' & Hp & Hm & _).
  - reflexivity.
  - reflexivity.
  - unfold Examples.grey_image. rewrite length_replicate. lia.
  - exists e, w'. split; [exact Hp|]. rewrite Hm.
    unfold Examples.grey_image. rewrite length_replicate.
    vm_compute. reflexivity.
Defined.

(* ===================================================================== *)
(** ** The range of the result *)
(* ===================================================================== *)

(** C7, as stated, fails: a session whose first output value is 1.5 makes
    [predict] report the confidence 1.5, outside [0, 1]. *)
Lemma predict_confidence_above_one :
  ∃ r w', predict (Examples.offline Examples.black_image) "eyelid.jpg"
            (Examples.serving [decimal 15 10]) = (inr r, w')
     ∧ usingDefaultPrediction r = false
     ∧ prediction r = "Non-anemic"
     ∧ confidence r = Some (decimal 15 10)
     ∧ in_unit_interval (decimal 15 10) = false.
Proof.
  destruct (serving_predict [decimal 15 10] "eyelid.jpg") as [w' Hp].
  eexists _, w'. split; [exact Hp|].
  unfold model_result. cbn [usingDefaultPrediction prediction confidence t_data head].
  repeat split; vm_compute; reflexivity.
Qed.

(** C7, amended. [predict] always returns one of the two labels.  On the
    default paths (no session, or any exception) the confidence is 0.8,
    which lies in [0, 1].  On the model path the confidence is the raw
    score, the first value of the output, handed on as it is: it lies in
    [0, 1] when the raw score does, and nothing in the code clamps it. *)
Theorem predict_result_range env path w :
  ∃ r w', predict env path w = (inr r, w')
    ∧ (prediction r = "Anemic" ∨ prediction r = "Non-anemic")
    ∧ (usingDefaultPrediction r = true →
         confidence r = Some (decimal 8 10) ∧ in_unit_interval (decimal 8 10) = true)
    ∧ (usingDefaultPrediction r = false →
         ∃ d, debug r = Some d ∧ confidence r = head (rawOutput d)
            ∧ ∀ raw, head (rawOutput d) = Some raw → in_unit_interval raw = true →
                ∃ c, confidence r = Some c ∧ in_unit_interval c = true).
Proof.
  assert (Hdef : ∀ err, let r := default_prediction err in
            (prediction r = "Anemic" ∨ prediction r = "Non-anemic")
            ∧ (usingDefaultPrediction r = true →
                 confidence r = Some (decimal 8 10) ∧ in_unit_interval (decimal 8 10) = true)
            ∧ (usingDefaultPrediction r = false →
                 ∃ d, debug r = Some d ∧ confidence r = head (rawOutput d)
                    ∧ ∀ raw, head (rawOutput d) = Some raw → in_unit_interval raw = true →
                        ∃ c, confidence r = Some c ∧ in_unit_interval c = true)).
  { intros err r. split; [left; reflexivity|]. split.
    - intros _. split; [reflexivity|vm_compute; reflexivity].
    - intros Hf. discriminate Hf. }
  destruct (predict_try env path w) as [[e|r] w1] eqn:Htry.
  - eexists _, _. split; [apply predict_catches; exact Htry|]. apply Hdef.
  - exists r, w1. split; [apply predict_passes; exact Htry|].
    destruct (predict_try_result env path w r w1 Htry) as [[_ ->]|[outputTensor ->]].
    + apply Hdef.
    + unfold model_result.
      cbn [prediction confidence usingDefaultPrediction debug rawOutput].
      split; [apply interpret_label|]. split; [intros Hf; discriminate Hf|].
      intros _. eexists. split; [reflexivity|]. cbn [rawOutput].
      rewrite interpret_confidence. split; [reflexivity|].
      intros raw Hraw Hin. exists raw. split; assumption.
Qed.

(* ===================================================================== *)
(** ** The source tag *)
(* ===================================================================== *)

(** C10. The tag of [getModelSource()] is read off the disk at the time of
    the call: "huggingface_cached" when the cache file exists, else "local"
    when the bundled file exists, else "none".  It is the [modelSource] of
    [getModelStatus()] and of every result [predict] returns from the model
    path, and a world with the same files and paths gives the same tag,
    whatever session it holds. *)
Theorem getModelSource_reads_disk env path w :
  ∃ tag,
    getModelSource w = (inr tag, w)
    ∧ (existsSync (files w) (cachedModelPath (this w)) = true →
         tag = "huggingface_cached")
    ∧ (existsSync (files w) (cachedModelPath (this w)) = false →
       existsSync (files w) (localModelPath (this w)) = true →
         tag = "local")
    ∧ (existsSync (files w) (cachedModelPath (this w)) = false →
       existsSync (files w) (localModelPath (this w)) = false →
         tag = "none")
    ∧ (∃ st, getModelStatus w = (inr st, w) ∧ st_modelSource st = tag)
    ∧ (∀ r w', predict env path w = (inr r, w') →
         usingDefaultPrediction r = false → modelSource r = tag)
    ∧ (∀ w2, files w2 = files w →
         cachedModelPath (this w2) = cachedModelPath (this w) →
         localModelPath (this w2) = localModelPath (this w) →
         getModelSource w2 = (inr tag, w2)).
Proof.
  exists (source_tag (files w) (cachedModelPath (this w)) (localModelPath (this w))).
  split; [apply getModelSource_eq|].
  unfold source_tag at 1 2 3.
  split; [intros ->; reflexivity|].
  split; [intros -> ->; reflexivity|].
  split; [intros -> ->; reflexivity|].
  split; [exists (status_of w); split; [apply getModelStatus_eq|reflexivity]|].
  split.
  - intros r w' Hp Hdef.
    destruct (predict_try env path w) as [[e|r0] w1] eqn:Htry.
    + rewrite (predict_catches env path w e w1 Htry) in Hp.
      injection Hp as <- _. discriminate Hdef.
    + rewrite (predict_passes env path w r0 w1 Htry) in Hp.
      injection Hp as <- _.
      destruct (predict_try_result env path w r0 w1 Htry) as [[_ ->]|[outputTensor ->]].
      * discriminate Hdef.
      * reflexivity.
  - intros w2 Hf Hc Hl. rewrite getModelSource_eq, Hf, Hc, Hl. reflexivity.
Qed.

(* ===================================================================== *)
(** ** clearCache *)
(* ===================================================================== *)

Lemma existsSync_false fs p : existsSync fs p = false → fs !! p = None.
Proof.
  unfold existsSync. intros H. apply bool_decide_eq_false in H.
  destruct (fs !! p) eqn:E; [|reflexivity]. exfalso. apply H. eauto.
Qed.

(** What sharp answers does not depend on the world. *)
Lemma preprocessImage_answer env path w w2 :
  (preprocessImage env path w).1 = (preprocessImage env path w2).1.
Proof.
  unfold preprocessImage. unfold_M.
  destruct (sharp_metadata env path); [reflexivity|].
  destruct (sharp_raw env path); [reflexivity|].
  destruct (negb _); reflexivity.
Qed.

(** [predict] reads the manager's fields and, for the tag only, the disk. *)
Lemma predict_same_manager env path w w2 :
  this w2 = this w →
  ∃ r r2 w1 w3,
    predict env path w = (inr r, w1)
    ∧ predict env path w2 = (inr r2, w3)
    ∧ same_answer r r2.
Proof.
  intros Hthis. unfold same_answer.
  destruct (sessionONNX (this w)) as [s|] eqn:Hs.
  - assert (Hs2 : sessionONNX (this w2) = Some s) by (rewrite Hthis; exact Hs).
    pose proof (predict_try_stages env path w s Hs) as H1.
    pose proof (predict_try_stages env path w2 s Hs2) as H2.
    pose proof (preprocessImage_answer env path w w2) as Hans.
    destruct (preprocessImage env path w) as [pre w1].
    destruct (preprocessImage env path w2) as [pre2 w3].
    cbn [fst] in Hans. subst pre2. unfold after_preprocess in H1, H2.
    destruct pre as [e|tensor].
    { eexists _, _, _, _.
      split; [apply predict_catches; exact H1|].
      split; [apply predict_catches; exact H2|]. repeat split. }
    destruct (existsb _ (t_data tensor)).
    { eexists _, _, _, _.
      split; [apply predict_catches; exact H1|].
      split; [apply predict_catches; exact H2|]. repeat split. }
    destruct (run s _) as [e|results].
    { eexists _, _, _, _.
      split; [apply predict_catches; exact H1|].
      split; [apply predict_catches; exact H2|]. repeat split. }
    destruct (list_find _ results) as [[j [name outputTensor]]|].
    + eexists _, _, _, _.
      split; [apply predict_passes; exact H1|].
      split; [apply predict_passes; exact H2|]. repeat split.
    + eexists _, _, _, _.
      split; [apply predict_catches; exact H1|].
      split; [apply predict_catches; exact H2|]. repeat split.
  - assert (Hs2 : sessionONNX (this w2) = None) by (rewrite Hthis; exact Hs).
    eexists _, _, _, _.
    split; [apply predict_no_session; exact Hs|].
    split; [apply predict_no_session; exact Hs2|]. repeat split.
Qed.


(* ===================================================================== *)
(** ** downloadModel *)
(* ===================================================================== *)

Lemma requests_app tr tr' : requests (tr ++ tr') = requests tr ++ requests tr'.
Proof. unfold requests. apply omap_app. Qed.


(** The status of the redirect target is not looked at: a 404 page behind
    a 302 is stored as the model and the download resolves. *)
Lemma downloadModel_stores_error_page :
  let w := downloadModel (DownloadExamples.answering
             DownloadExamples.found DownloadExamples.not_found) Examples.fresh in
  w.1 = inr tt
  ∧ files w.2 !! cachedModelPath (this Examples.fresh)
    = Some (File DownloadExamples.error_page).
Proof. vm_compute. split; reflexivity. Qed.

Lemma unlink_ignore_file p w content :
  files w !! p = Some (File content) →
  unlink_ignore p w
  = (inr tt, mkWorld (this w) (delete p (files w)) (now w) (timers w) (trace w)).
Proof.
  intros H. unfold unlink_ignore, unlinkSync. unfold_M. rewrite H. reflexivity.
Qed.

(** The request to the redirect target, made while the (empty) cache file
    is there. *)
Lemma follow_redirect_outcomes env cached t loc w content :
  files w !! cached = Some (File content) →
  ∃ r w',
    follow_redirect env cached t loc w = (r, w')
    ∧ this w' = this w
    ∧ trace w' = trace w ++ [EvHttpsGet loc]
    ∧ (∀ code2 msg2 loc2 body2,
         https_get env t loc = Response code2 msg2 loc2 body2 →
         r = inr tt ∧ files w' !! cached = Some (File body2))
    ∧ (∀ e, https_get env t loc = ReqError e →
         r = inl e ∧ files w' !! cached = None)
    ∧ (https_get env t loc = ReqTimeout →
         r = inl (mkError "Download timeout (2 minutes)")).
Proof.
  intros Hfile. unfold follow_redirect. unfold bind at 1. unfold emit at 1.
  destruct (https_get env t loc) as [e| |code2 msg2 loc2 body2].
  - unfold bind. rewrite (unlink_ignore_file cached _ content) by exact Hfile.
    unfold throw. eexists _, _. split; [reflexivity|].
    cbn [this files now timers trace].
    split; [reflexivity|]. split; [reflexivity|].
    split; [intros; discriminate|]. split; [|intros; discriminate].
    intros e' [= <-]. split; [reflexivity|]. apply lookup_delete_eq.
  - unfold throw. eexists _, _. split; [reflexivity|].
    cbn [this files now timers trace].
    split; [reflexivity|]. split; [reflexivity|].
    split; [intros; discriminate|]. split; [intros; discriminate|]. reflexivity.
  - unfold_M. eexists _, _. split; [reflexivity|].
    cbn [this files now timers trace].
    split; [reflexivity|]. split; [reflexivity|].
    split; [|split; intros; discriminate].
    intros ? ? ? ? [= _ _ _ <-]. split; [reflexivity|]. apply lookup_insert_eq.
Qed.


(* ===================================================================== *)
(** ** loadModel and the retry policy *)
(* ===================================================================== *)

Lemma quiet_trans w1 w2 w3 : quiet w1 w2 → quiet w2 w3 → quiet w1 w3.
Proof. unfold quiet. intros (-> & -> & ->) (-> & -> & ->). repeat split. Qed.

Lemma unlink_ignore_quiet p w : ∃ w', unlink_ignore p w = (inr tt, w') ∧ quiet w w'.
Proof.
  unfold unlink_ignore, unlinkSync. unfold_M.
  destruct (files w !! p) as [[c|]|]; eexists; (split; [reflexivity|]); repeat split.
Qed.

Lemma follow_redirect_quiet env cached t loc w r w' :
  follow_redirect env cached t loc w = (r, w') → quiet w w'.
Proof.
  unfold follow_redirect. unfold bind at 1. unfold emit at 1.
  destruct (https_get env t loc).
  - unfold bind.
    destruct (unlink_ignore_quiet cached
                (mkWorld (this w) (files w) (now w) (timers w) (trace w ++ [EvHttpsGet loc])))
      as (w1 & -> & Hq).
    unfold throw. intros [= <- <-]. exact Hq.
  - unfold throw. intros [= <- <-]. repeat split.
  - unfold_M. intros [= <- <-]. repeat split.
Qed.

Lemma downloadModel_quiet env w r w' :
  downloadModel env w = (r, w') → quiet w w'.
Proof.
  unfold downloadModel.
  unfold bind at 1 2 3 4. unfold get_this, set_files at 1, get_now, emit at 1.
  cbn [this files now timers trace].
  destruct (https_get env (now w) _) as [e| |code msg loc body].
  - unfold bind.
    match goal with |- context [unlink_ignore ?p ?w0] =>
      destruct (unlink_ignore_quiet p w0) as (w1 & -> & Hq) end.
    unfold throw. intros [= <- <-]. exact Hq.
  - unfold throw. intros [= <- <-]. repeat split.
  - destruct (code =? 200)%Z.
    { unfold_M. intros [= <- <-]. repeat split. }
    destruct (_ || _).
    + intros H. apply follow_redirect_quiet in H. exact H.
    + unfold throw. intros [= <- <-]. repeat split.
Qed.

Lemma create_session_quiet env p w :
  ∃ w', create_session env p w = (ort_create env (files w !! p), w') ∧ quiet w w'
        ∧ files w' = files w.
Proof.
  unfold create_session. unfold_M. eexists. split; [reflexivity|]. repeat split.
Qed.

Lemma adopt_session_eq s w :
  adopt_session s w
  = (inr (Some s),
     mkWorld (set_isLoading false (set_sessionONNX s (this w)))
             (files w) (now w) (timers w) (trace w)).
Proof. reflexivity. Qed.

Lemma end_without_session_spec w w1 :
  quiet w w1 → ∃ w', end_without_session w1 = (inr None, w') ∧ ended_without_session w w'.
Proof.
  intros (Hthis & Hnow & Htm). unfold end_without_session, ended_without_session. unfold_M.
  cbn [this files now timers trace modelLoadAttempts maxLoadAttempts set_isLoading].
  rewrite Hthis, Hnow, Htm.
  destruct (_ <? _)%N; eexists; (split; [reflexivity|]); repeat split.
Qed.

Lemma adopt_session_spec s w w1 :
  quiet w w1 → ∃ w', adopt_session s w1 = (inr (Some s), w') ∧ adopted s w w'.
Proof.
  intros (Hthis & Hnow & Htm). rewrite adopt_session_eq.
  eexists. split; [reflexivity|]. unfold adopted. cbn [this files now timers trace].
  rewrite Hthis, Hnow, Htm. repeat split.
Qed.

Lemma load_fallback_spec env w w1 :
  quiet w w1 → ∃ r w', load_fallback env w1 = (inr r, w') ∧ attempt_post w r w'.
Proof.
  intros Hq. unfold load_fallback.
  unfold bind at 1 2 3. unfold get_this at 1, get_files at 1.
  destruct (existsSync (files w1) (localModelPath (this w1))).
  - unfold try_catch, bind at 1.
    destruct (create_session_quiet env (localModelPath (this w1)) w1)
      as (w2 & -> & Hq2 & _).
    pose proof (quiet_trans _ _ _ Hq Hq2) as Hq3.
    destruct (ort_create env _) as [e|s].
    + unfold ret at 1.
      destruct (end_without_session_spec w w2 Hq3) as (w' & -> & Hpost).
      exists None, w'. split; [reflexivity|exact Hpost].
    + unfold bind at 1.
      destruct (adopt_session_spec s w w2 Hq3) as (w' & -> & Hpost).
      unfold ret. exists (Some s), w'. split; [reflexivity|exact Hpost].
  - unfold ret at 1.
    destruct (end_without_session_spec w w1 Hq) as (w' & -> & Hpost).
    exists None, w'. split; [reflexivity|exact Hpost].
Qed.

(** What one attempt leaves behind.  It never throws.  If it returns a
    session, that session is kept and no timer is set; if it returns
    nothing, the session is as before and one retry is set 3000 ms ahead
    exactly when the attempts made are fewer than the maximum.  Either way
    the flag is down. *)
Lemma loadModel_attempt_spec env w :
  ∃ r w', loadModel_attempt env w = (inr r, w') ∧ attempt_post w r w'.
Proof.
  unfold loadModel_attempt, try_catch.
  unfold bind at 1 2. unfold get_this at 1, get_files at 1.
  destruct (existsSync (files w) (cachedModelPath (this w))).
  - unfold bind at 1.
    destruct (create_session_quiet env (cachedModelPath (this w)) w)
      as (w2 & -> & Hq & _).
    destruct (ort_create env _) as [e|s].
    + apply load_fallback_spec. exact Hq.
    + destruct (adopt_session_spec s w w2 Hq) as (w' & -> & Hpost).
      exists (Some s), w'. split; [reflexivity|exact Hpost].
  - unfold bind at 1.
    destruct (downloadModel env w) as [[e|[]] w1] eqn:Hdl;
      apply downloadModel_quiet in Hdl.
    + apply load_fallback_spec. exact Hdl.
    + unfold bind at 1.
      destruct (create_session_quiet env (cachedModelPath (this w)) w1)
        as (w2 & -> & Hq & _).
      pose proof (quiet_trans _ _ _ Hdl Hq) as Hq2.
      destruct (ort_create env _) as [e|s].
      * apply load_fallback_spec. exact Hq2.
      * destruct (adopt_session_spec s w w2 Hq2) as (w' & -> & Hpost).
        exists (Some s), w'. split; [reflexivity|exact Hpost].
Qed.

Lemma loadModel_enter_idle k w :
  isLoading (this w) = false → loadModel_enter k w = (inr Started, begun w).
Proof.
  intros H. unfold loadModel_enter, loadModel_begin. unfold_M. rewrite H. reflexivity.
Qed.

Lemma loadModel_enter_busy k w :
  isLoading (this w) = true →
  loadModel_enter k w
  = (inr (Waits Parked),
     mkWorld (this w) (files w) (now w)
             (timers w ++ [((now w + 100)%N, CbCheckLoading k)]) (trace w)).
Proof.
  intros H. unfold loadModel_enter, waitForLoad, checkLoading. unfold_M.
  rewrite !H. reflexivity.
Qed.

Lemma loadModel_idle env k w :
  isLoading (this w) = false →
  ∃ r w', loadModel env k w = (inr (Resolved r), w') ∧ attempt_post (begun w) r w'.
Proof.
  intros H. unfold loadModel. unfold bind at 1. rewrite (loadModel_enter_idle k w H).
  destruct (loadModel_attempt_spec env (begun w)) as (r & w' & Heq & Hpost).
  unfold bind. rewrite Heq. exists r, w'. split; [reflexivity|exact Hpost].
Qed.

(** With no timer pending and nothing in flight, only a caller can make
    the manager move. *)
Lemma idle_loop_stays env acts : ∀ l l',
  forallb (λ a, negb (is_call a)) acts = true →
  timers (world l) = [] → inflight l = None →
  run_loop env acts l = Some l' →
  this (world l') = this (world l).
Proof.
  induction acts as [|a acts IH]; intros l l' Hacts Htm Hin Hrun.
  - injection Hrun as <-. reflexivity.
  - cbn [forallb] in Hacts. apply andb_true_iff in Hacts as [Ha Hacts].
    cbn [run_loop] in Hrun.
    destruct a as [c e| |t|i]; cbn [is_call negb] in Ha; [discriminate| | |].
    + cbn [exec] in Hrun. rewrite Hin in Hrun. discriminate.
    + cbn [exec] in Hrun.
      destruct (bool_decide _ && _); [|discriminate].
      exact (IH (mkLoop (set_now t (world l)) (inflight l) (callers l)) l'
                Hacts Htm Hin Hrun).
    + cbn [exec] in Hrun. rewrite Htm in Hrun. discriminate.
Qed.




(* ===================================================================== *)
(** ** Single flight *)
(* ===================================================================== *)

Lemma count_timers_app p l k :
  count_timers p (l ++ k) = count_timers p l + count_timers p k.
Proof. unfold count_timers. rewrite List.filter_app, length_app. reflexivity. Qed.

Lemma count_timers_delete p l : ∀ i x,
  l !! i = Some x →
  count_timers p l = (if p x then 1 else 0) + count_timers p (delete i l).
Proof.
  unfold count_timers.
  induction l as [|y l IH]; intros [|i] x Hx; try discriminate.
  - injection Hx as ->. cbn [delete list_delete List.filter].
    destruct (p x); reflexivity.
  - cbn [lookup list_lookup] in Hx. cbn [delete list_delete List.filter].
    specialize (IH i x Hx).
    destruct (p y); simpl length; rewrite IH; destruct (p x);
      rewrite ?Nat.add_succ_r; reflexivity.
Qed.

Lemma count_timers_none p l :
  count_timers p l = 0 ↔ Forall (λ x, p x = false) l.
Proof.
  unfold count_timers. induction l as [|y l IH]; cbn [List.filter].
  - split; [constructor|reflexivity].
  - destruct (p y) eqn:Hy; cbn [length].
    + split; [discriminate|]. intros H. inversion H; congruence.
    + rewrite IH. split; [intros H; constructor; assumption|].
      intros H. inversion H; assumption.
Qed.

Lemma count_timers_some p l :
  0 < count_timers p l → ∃ x, x ∈ l ∧ p x = true.
Proof.
  unfold count_timers. induction l as [|y l IH]; cbn [List.filter length]; [lia|].
  destruct (p y) eqn:Hy.
  - intros _. exists y. split; [left|exact Hy].
  - intros H. destruct (IH H) as (x & Hin & Hx). exists x. split; [right; exact Hin|exact Hx].
Qed.

Lemma resume_status c w infl cs :
  resume (StatusFor c) w infl cs = mkLoop w infl (<[c := Returned (status_of w)]> cs).
Proof. unfold resume. rewrite getModelStatus_eq. reflexivity. Qed.

Lemma checkLoading_busy k w :
  isLoading (this w) = true →
  checkLoading k w
  = (inr false,
     mkWorld (this w) (files w) (now w)
             (timers w ++ [((now w + 100)%N, CbCheckLoading k)]) (trace w)).
Proof. intros H. unfold checkLoading. unfold_M. rewrite H. reflexivity. Qed.

Lemma checkLoading_idle k w :
  isLoading (this w) = false → checkLoading k w = (inr true, w).
Proof. intros H. unfold checkLoading. unfold_M. rewrite H. reflexivity. Qed.

Lemma make_cache_dir_quiet w :
  ∃ w', make_cache_dir w = (inr tt, w') ∧ quiet w w' ∧ trace w' = trace w.
Proof.
  unfold make_cache_dir. unfold_M.
  destruct (negb _); eexists; (split; [reflexivity|]); repeat split.
Qed.

Section SingleFlight.
Variable env : Env.
Variables a b : nat.
Variable n0 : N.
Hypothesis Hab : a ≠ b.

Lemma polls_for_b_iff d k :
  polls_for b (d, CbCheckLoading k) = true ↔ k = StatusFor b.
Proof.
  unfold polls_for. cbn [snd]. destruct k as [c|].
  - rewrite bool_decide_eq_true. split; [intros ->; reflexivity|intros [= ->]; reflexivity].
  - split; discriminate.
Qed.

Lemma polls_for_same d d' cb : polls_for b (d, cb) = polls_for b (d', cb).
Proof. reflexivity. Qed.

(** The attempt of [a] ends. *)
Lemma inv_complete l l' :
  Inv a b n0 l → exec env Complete l = Some l' → Inv a b n0 l'.
Proof.
  intros HI Hex. cbn [exec] in Hex.
  destruct HI as [l Hin Hbusy Hn Ha Hb Htm Hcnt
                 |l D Hin Hidle Hn Ha Hb HD Htm Hcnt
                 |l st Ha Hb Hst Hsl Hna Hnb Htm].
  - rewrite Hin in Hex.
    destruct (loadModel_attempt_spec env (world l)) as (r & w' & Heq & Hpost).
    rewrite Heq in Hex. rewrite resume_status in Hex. injection Hex as <-.
    assert (Hw : now w' = now (world l)
                 ∧ isLoading (this w') = false
                 ∧ modelLoadAttempts (this w') = n0
                 ∧ (timers w' = timers (world l)
                    ∨ timers w' = timers (world l)
                                  ++ [((now (world l) + 3000)%N, CbLoadModel)])).
    { destruct r as [s|]; destruct Hpost as (Hnow & Hthis & Htm').
      - rewrite Hthis. repeat split; [exact Hnow|exact Hn|left; exact Htm'].
      - rewrite Hthis. repeat split; [exact Hnow|exact Hn|].
        destruct (_ <? _)%N; [right|left]; exact Htm'. }
    destruct Hw as (Hnow & Hflag & Hn' & Htm').
    apply (Landed _ (now (world l) + 100)%N); cbn [world inflight callers].
    + reflexivity.
    + exact Hflag.
    + exact Hn'.
    + apply lookup_insert_eq.
    + rewrite lookup_insert_ne by exact Hab. exact Hb.
    + rewrite Hnow. lia.
    + assert (Hold : Forall (landed_timer a b (now (world l) + 100)) (timers (world l))).
      { eapply Forall_impl; [exact Htm|]. intros [d cb]. unfold in_flight_timer, landed_timer.
        cbn [fst snd]. destruct cb as [|[c|]]; tauto. }
      destruct Htm' as [-> | ->]; [exact Hold|].
      apply Forall_app. split; [exact Hold|].
      constructor; [|constructor]. unfold landed_timer. cbn [fst snd]. lia.
    + destruct Htm' as [-> | ->]; [exact Hcnt|].
      rewrite count_timers_app, Hcnt. reflexivity.
  - rewrite Hin in Hex. discriminate.
  - destruct (inflight l) as [k|] eqn:Hin; [|discriminate].
    destruct (loadModel_attempt_spec env (world l)) as (r & w' & Heq & Hpost).
    rewrite Heq in Hex.
    assert (Htm' : Forall (settled_timer a b) (timers w')).
    { destruct r as [s|]; destruct Hpost as (_ & _ & ->); [exact Htm|].
      destruct (_ <? _)%N; [|exact Htm].
      apply Forall_app. split; [exact Htm|]. constructor; [exact I|constructor]. }
    destruct k as [c|].
    + rewrite resume_status in Hex. injection Hex as <-.
      assert (c ≠ a) by congruence. assert (c ≠ b) by congruence.
      apply (Settled _ st); cbn [world inflight callers]; try assumption.
      * rewrite lookup_insert_ne by congruence. exact Ha.
      * rewrite lookup_insert_ne by congruence. exact Hb.
      * discriminate.
      * discriminate.
    + cbn [resume] in Hex. injection Hex as <-.
      apply (Settled _ st); cbn [world inflight callers]; try assumption; discriminate.
Qed.

(** Time passes. *)
Lemma inv_tick l l' t :
  Inv a b n0 l → exec env (Tick t) l = Some l' → Inv a b n0 l'.
Proof.
  intros HI Hex. cbn [exec] in Hex.
  destruct (bool_decide (now (world l) < t)%N && _) eqn:Hguard; [|discriminate].
  injection Hex as <-.
  apply andb_true_iff in Hguard as [Hlt Hall].
  apply bool_decide_eq_true in Hlt. rewrite forallb_forall in Hall.
  destruct HI as [l Hin Hbusy Hn Ha Hb Htm Hcnt
                 |l D Hin Hidle Hn Ha Hb HD Htm Hcnt
                 |l st Ha Hb Hst Hsl Hna Hnb Htm].
  - apply InFlight; cbn [world inflight callers set_now this now timers]; try assumption.
    eapply Forall_impl; [exact Htm|]. intros [d cb]. unfold in_flight_timer.
    cbn [fst snd]. destruct cb as [|[c|]]; [tauto| |tauto].
    intros [Hc Hd]. split; [exact Hc|]. intros Hcb. specialize (Hd Hcb). lia.
  - apply (Landed _ D); cbn [world inflight callers set_now this now timers];
      try assumption.
    destruct (count_timers_some (polls_for b) (timers (world l))) as (x & Hx & Hp);
      [lia|].
    pose proof (proj1 (Forall_forall _ _) Htm x Hx) as Hlx.
    apply list_elem_of_In in Hx. specialize (Hall x Hx). apply N.leb_le in Hall.
    destruct x as [d cb]. unfold polls_for in Hp. unfold landed_timer in Hlx.
    cbn [fst snd] in *. destruct cb as [|[c|]]; try discriminate.
    apply bool_decide_eq_true in Hp. destruct Hlx as [_ Hd]. specialize (Hd Hp). lia.
  - apply (Settled _ st); cbn [world inflight callers set_now this now timers];
      assumption.
Qed.

(** A timer goes off. *)
Lemma inv_fire l l' i :
  Inv a b n0 l → exec env (Fire i) l = Some l' → Inv a b n0 l'.
Proof.
  intros HI Hex. cbn [exec] in Hex.
  destruct (timers (world l) !! i) as [[d cb]|] eqn:Hi; [|discriminate].
  destruct (d <=? now (world l))%N eqn:Hdue; [|discriminate].
  apply N.leb_le in Hdue.
  pose proof (count_timers_delete (polls_for b) _ i _ Hi) as Hcd.
  destruct HI as [l Hin Hbusy Hn Ha Hb Htm Hcnt
                 |l D Hin Hidle Hn Ha Hb HD Htm Hcnt
                 |l st Ha Hb Hst Hsl Hna Hnb Htm].
  - (* in flight: every poll finds the flag up and is set again *)
    pose proof (Forall_lookup_1 _ _ _ _ Htm Hi) as Hthis.
    destruct cb as [|k]; [destruct Hthis|].
    rewrite (checkLoading_busy k (drop_timer i (world l)) Hbusy) in Hex.
    injection Hex as <-.
    apply InFlight; cbn [world inflight callers drop_timer this now timers];
      try assumption.
    + apply Forall_app. split; [apply Forall_delete; exact Htm|].
      constructor; [|constructor]. unfold in_flight_timer in *. cbn [fst snd] in *.
      destruct k as [c|]; [|exact I]. split; [apply Hthis|]. intros _. lia.
    + rewrite count_timers_app. unfold count_timers at 2. cbn [List.filter].
      rewrite (polls_for_same (now (world l) + 100) d). rewrite Hcnt in Hcd.
      destruct (polls_for b (d, CbCheckLoading k)); cbn [length]; lia.
  - (* landed: a retry is not due yet; the poll of [b] reads the status *)
    pose proof (Forall_lookup_1 _ _ _ _ Htm Hi) as Hthis.
    unfold landed_timer in Hthis. cbn [fst snd] in Hthis.
    destruct cb as [|k]; [lia|].
    rewrite (checkLoading_idle k (drop_timer i (world l)) Hidle) in Hex.
    rewrite Hcnt in Hcd.
    destruct k as [c|].
    + rewrite resume_status in Hex. injection Hex as <-.
      destruct Hthis as [Hca Hcb].
      destruct (decide (c = b)) as [-> | Hne].
      * (* the poll of [b] *)
        rewrite (proj2 (polls_for_b_iff d (StatusFor b)) eq_refl) in Hcd.
        apply (Settled _ (status_of (world l)));
          cbn [world inflight callers drop_timer this now timers].
        -- rewrite lookup_insert_ne by congruence. exact Ha.
        -- apply lookup_insert_eq.
        -- exact Hn.
        -- exact Hidle.
        -- rewrite Hin. discriminate.
        -- rewrite Hin. discriminate.
        -- assert (Hnone : Forall (λ x, polls_for b x = false)
                             (delete i (timers (world l)))).
           { apply count_timers_none. lia. }
           pose proof (Forall_delete _ _ i Htm) as Hdel.
           apply Forall_forall. intros [d' cb'] Hx.
           pose proof (proj1 (Forall_forall _ _) Hnone _ Hx) as H1.
           pose proof (proj1 (Forall_forall _ _) Hdel _ Hx) as H2.
           unfold settled_timer, landed_timer, polls_for in *. cbn [fst snd] in *.
           destruct cb' as [|[c'|]]; [exact I| |exact I].
           apply bool_decide_eq_false in H1. tauto.
      * (* somebody else's poll *)
        assert (Hpf : polls_for b (d, CbCheckLoading (StatusFor c)) = false).
        { destruct (polls_for b _) eqn:E; [|reflexivity].
          apply polls_for_b_iff in E. congruence. }
        rewrite Hpf in Hcd.
        apply (Landed _ D); cbn [world inflight callers drop_timer this now timers];
          try assumption.
        -- rewrite lookup_insert_ne by congruence. exact Ha.
        -- rewrite lookup_insert_ne by congruence. exact Hb.
        -- apply Forall_delete. exact Htm.
        -- lia.
    + cbn [resume] in Hex. injection Hex as <-.
      apply (Landed _ D); cbn [world inflight callers drop_timer this now timers];
        try assumption.
      * apply Forall_delete. exact Htm.
      * cbn [polls_for snd] in Hcd. lia.
  - (* settled: nothing touches the two callers any more *)
    pose proof (Forall_lookup_1 _ _ _ _ Htm Hi) as Hthis.
    pose proof (Forall_delete _ _ i Htm) as Hdel.
    destruct cb as [|k].
    + destruct (isLoading (this (world l))) eqn:Hflag.
      * rewrite (loadModel_enter_busy Detached (drop_timer i (world l)) Hflag) in Hex.
        cbn [after_enter park] in Hex. injection Hex as <-.
        apply (Settled _ st); cbn [world inflight callers drop_timer this now timers];
          try assumption.
        apply Forall_app. split; [exact Hdel|]. constructor; [exact I|constructor].
      * rewrite (loadModel_enter_idle Detached (drop_timer i (world l)) Hflag) in Hex.
        cbn [after_enter park] in Hex. injection Hex as <-.
        apply (Settled _ st);
          cbn [world inflight callers drop_timer begun this now timers];
          try assumption; discriminate.
    + destruct (isLoading (this (world l))) eqn:Hflag.
      * rewrite (checkLoading_busy k (drop_timer i (world l)) Hflag) in Hex.
        injection Hex as <-.
        apply (Settled _ st); cbn [world inflight callers drop_timer this now timers];
          try assumption.
        apply Forall_app. split; [exact Hdel|]. constructor; [exact Hthis|constructor].
      * rewrite (checkLoading_idle k (drop_timer i (world l)) Hflag) in Hex.
        destruct k as [c|].
        -- rewrite resume_status in Hex. injection Hex as <-.
           unfold settled_timer in Hthis. cbn [snd] in Hthis. destruct Hthis as [Hca Hcb].
           apply (Settled _ st); cbn [world inflight callers drop_timer this now timers];
             try assumption.
           ++ rewrite lookup_insert_ne by congruence. exact Ha.
           ++ rewrite lookup_insert_ne by congruence. exact Hb.
        -- cbn [resume] in Hex. injection Hex as <-.
           apply (Settled _ st); cbn [world inflight callers drop_timer this now timers];
             assumption.
Qed.

Lemma inv_step l l' act :
  Inv a b n0 l → is_call act = false → exec env act l = Some l' → Inv a b n0 l'.
Proof.
  intros HI Hact Hex. destruct act as [c e| |t|i].
  - discriminate.
  - exact (inv_complete l l' HI Hex).
  - exact (inv_tick l l' t HI Hex).
  - exact (inv_fire l l' i HI Hex).
Qed.

Lemma inv_run acts : ∀ l l',
  Inv a b n0 l → forallb (λ x, negb (is_call x)) acts = true →
  run_loop env acts l = Some l' → Inv a b n0 l'.
Proof.
  induction acts as [|act acts IH]; intros l l' HI Hacts Hrun.
  - injection Hrun as <-. exact HI.
  - cbn [forallb] in Hacts. apply andb_true_iff in Hacts as [Hact Hacts].
    apply negb_true_iff in Hact. cbn [run_loop] in Hrun.
    destruct (exec env act l) as [l1|] eqn:Hex; [|discriminate].
    exact (IH l1 l' (inv_step l l1 act HI Hact Hex) Hacts Hrun).
Qed.

(** The second caller arrives while the attempt of [a] is in flight. *)
Lemma inv_established l0 l1 :
  inflight l0 = Some (StatusFor a) →
  isLoading (this (world l0)) = true →
  modelLoadAttempts (this (world l0)) = n0 →
  callers l0 !! a = Some AwaitsAttempt →
  callers l0 !! b = None →
  Forall (λ tm, is_retry tm = false ∧ polls_for a tm = false ∧ polls_for b tm = false)
         (timers (world l0)) →
  exec env (Call b ViaInitialize) l0 = Some l1 →
  Inv a b n0 l1
  ∧ this (world l1) = this (world l0)
  ∧ trace (world l1) = trace (world l0)
  ∧ inflight l1 = inflight l0
  ∧ callers l1 !! b = Some Polls.
Proof.
  intros Hin Hbusy Hn Ha Hb Htm Hex. cbn [exec] in Hex. rewrite Hb in Hex.
  unfold bind in Hex.
  destruct (make_cache_dir_quiet (world l0)) as (w1 & Hmk & (Hthis & Hnow & Htm1) & Htr).
  rewrite Hmk in Hex.
  assert (Hbusy1 : isLoading (this w1) = true) by (rewrite Hthis; exact Hbusy).
  rewrite (loadModel_enter_busy (StatusFor b) w1 Hbusy1) in Hex.
  cbn [after_enter park] in Hex. injection Hex as <-.
  cbn [world inflight callers this now timers trace].
  split; [|split; [exact Hthis|split; [exact Htr|split; [reflexivity|]]]].
  - apply InFlight; cbn [world inflight callers this now timers trace].
    + exact Hin.
    + exact Hbusy1.
    + rewrite Hthis. exact Hn.
    + rewrite lookup_insert_ne by congruence. exact Ha.
    + apply lookup_insert_eq.
    + rewrite Htm1. apply Forall_app. split.
      * eapply Forall_impl; [exact Htm|]. intros [d cb] (Hr & Hpa & Hpb).
        unfold in_flight_timer, is_retry, polls_for in *. cbn [fst snd] in *.
        destruct cb as [|[c|]]; [discriminate| |exact I].
        apply bool_decide_eq_false in Hpa, Hpb. tauto.
      * constructor; [|constructor]. unfold in_flight_timer. cbn [fst snd].
        split; [congruence|]. intros _. lia.
    + rewrite Htm1, count_timers_app.
      assert (H0 : count_timers (polls_for b) (timers (world l0)) = 0).
      { apply count_timers_none. eapply Forall_impl; [exact Htm|].
        intros x (_ & _ & H). exact H. }
      rewrite H0. unfold count_timers. cbn [List.filter].
      rewrite (proj2 (polls_for_b_iff _ (StatusFor b)) eq_refl). reflexivity.
  - apply lookup_insert_eq.
Qed.

Lemma inv_returned l sb :
  Inv a b n0 l → callers l !! b = Some (Returned sb) →
  callers l !! a = Some (Returned sb)
  ∧ st_loadAttempts sb = n0
  ∧ st_isLoading sb = false.
Proof.
  intros HI Hsb.
  destruct HI as [l Hin Hbusy Hn Ha Hb Htm Hcnt
                 |l D Hin Hidle Hn Ha Hb HD Htm Hcnt
                 |l st Ha Hb Hst Hsl Hna Hnb Htm]; try congruence.
  assert (sb = st) by congruence. subst sb. repeat split; assumption.
Qed.

End SingleFlight.




(* ===================================================================== *)
(** ** Further properties: the tensor and its validation *)
(* ===================================================================== *)

(** A tensor comes out of [preprocessImage] only from a buffer of the
    right size. *)
Lemma preprocessImage_inv env path w tensor w1 :
  preprocessImage env path w = (inr tensor, w1) →
  ∃ buffer,
    sharp_raw env path = inr buffer
    ∧ length buffer = 224 * 224 * 3
    ∧ tensor = tensor_of buffer.
Proof.
  intros H.
  destruct (sharp_metadata env path) as [e|u] eqn:Hmeta.
  { exfalso. revert H. unfold preprocessImage. unfold_M. rewrite Hmeta. discriminate. }
  destruct (sharp_raw env path) as [e|buffer] eqn:Hraw.
  { exfalso. revert H. unfold preprocessImage. unfold_M. rewrite Hmeta, Hraw.
    discriminate. }
  exists buffer. split; [reflexivity|].
  destruct (decide (length buffer = 224 * 224 * 3)) as [Hlen|Hlen].
  - split; [exact Hlen|].
    rewrite (preprocessImage_ok env path w buffer u Hmeta Hraw Hlen) in H.
    apply (f_equal fst) in H. cbn [fst] in H. apply (inj inr) in H.
    symmetry. exact H.
  - rewrite (preprocessImage_mismatch env path w buffer u Hmeta Hraw Hlen) in H.
    discriminate H.
Qed.

(** Whatever holds of every normalised byte holds of every value of the
    tensor. *)
Lemma normalize_pixels_Forall (Q : number → Prop) buffer P B data :
  (∀ c b, c < 3 → Q (normalized c (of_byte b))) →
  0 < B → 0 < P → length data = 3 * P → length buffer = P * 3 →
  Forall Q (normalize_pixels P B buffer data).
Proof.
  intros HQ HB HP Hdata Hlen. apply Forall_lookup. intros p v Hp.
  pose proof (lookup_lt_Some _ _ _ Hp) as Hlt.
  rewrite normalize_pixels_length, Hdata in Hlt by exact HB.
  assert (Hpc : p = (p `div` P) * P + p `mod` P).
  { rewrite Nat.mul_comm. apply Nat.div_mod. lia. }
  assert (Hi : p `mod` P < P) by (apply Nat.mod_upper_bound; lia).
  assert (Hc : p `div` P < 3).
  { apply Nat.Div0.div_lt_upper_bound. lia. }
  rewrite Hpc in Hp.
  rewrite (normalize_pixels_lookup buffer P B _ (p `mod` P) (p `div` P)) in Hp;
    [|exact HB|exact Hdata|exact Hi|exact Hc].
  assert (Hb : is_Some (buffer !! (3 * (p `mod` P) + p `div` P))).
  { apply lookup_lt_is_Some. rewrite Hlen. lia. }
  destruct Hb as [b Hb].
  rewrite (channel_value_normalized _ _ _ b Hc Hb) in Hp.
  apply (inj Some) in Hp. subst v. apply HQ. exact Hc.
Qed.

Lemma tensor_of_Forall (Q : number → Prop) buffer :
  (∀ c b, c < 3 → Q (normalized c (of_byte b))) →
  length buffer = 224 * 224 * 3 →
  Forall Q (t_data (tensor_of buffer)).
Proof.
  intros HQ Hlen. rewrite tensor_of_data. apply normalize_pixels_Forall.
  - exact HQ.
  - lia.
  - lia.
  - rewrite length_replicate. lia.
  - exact Hlen.
Qed.

(** X1. Every tensor that [preprocessImage] returns passes
    [validateModelInput], in any world and without changing it: the
    normalisation of a byte is always a finite number, so the "NaN or
    infinite values" error never comes from a preprocessed image. *)
Theorem validateModelInput_accepts_preprocessed env path w tensor w1 :
  preprocessImage env path w = (inr tensor, w1) →
  ∀ w2, validateModelInput tensor w2 = (inr true, w2).
Proof.
  intros Hpre w2.
  destruct (preprocessImage_inv env path w tensor w1 Hpre) as (buffer & _ & Hlen & ->).
  unfold validateModelInput. rewrite (tensor_of_finite buffer Hlen). reflexivity.
Qed.

Lemma validateModelInput_accepts_preprocessed_witness :
  ∃ tensor w1,
    preprocessImage (Examples.offline Examples.black_image) "eyelid.jpg" Examples.fresh
      = (inr tensor, w1)
    ∧ validateModelInput tensor Examples.fresh = (inr true, Examples.fresh).
Proof.
  pose proof (preprocessImage_ok (Examples.offline Examples.black_image) "eyelid.jpg"
                Examples.fresh Examples.black_image tt eq_refl eq_refl
                black_image_length) as Hpre.
  eexists _, _. split; [exact Hpre|].
  exact (validateModelInput_accepts_preprocessed _ _ _ _ _ Hpre Examples.fresh).
Defined.

(** X2. [validateModelInput] throws exactly when some value of the tensor
    is NaN or infinite, and returns true otherwise; it never changes the
    world. *)
Theorem validateModelInput_rejects_nonfinite tensor w :
  (Forall (λ v, isFinite v = true) (t_data tensor) →
   validateModelInput tensor w = (inr true, w))
  ∧ (¬ Forall (λ v, isFinite v = true) (t_data tensor) →
     validateModelInput tensor w
       = (inl (mkError "Input tensor contains NaN or infinite values"), w)).
Proof.
  unfold validateModelInput.
  destruct (existsb _ (t_data tensor)) eqn:Hex.
  - apply existsb_exists in Hex as (v & Hin & Hv).
    split; [|reflexivity].
    intros Hall. exfalso.
    apply list_elem_of_In in Hin.
    pose proof (proj1 (Forall_forall _ _) Hall v Hin) as Hfin.
    destruct v; simpl in Hv, Hfin; congruence.
  - split; [reflexivity|]. intros Hnot. exfalso. apply Hnot.
    apply Forall_forall. intros v Hin. apply list_elem_of_In in Hin.
    destruct (isFinite v) eqn:Hfin; [reflexivity|]. exfalso.
    assert (Htrue : existsb (λ v, negb (isFinite v) || isNaN v) (t_data tensor) = true).
    { apply existsb_exists. exists v. split; [exact Hin|]. rewrite Hfin. reflexivity. }
    congruence.
Qed.

Lemma normalized_range c b :
  c < 3 →
  le (decimal (-212) 100) (normalized c (of_byte b))
  && le (normalized c (of_byte b)) (decimal 265 100) = true.
Proof.
  intros Hc. assert (c = 0 ∨ c = 1 ∨ c = 2) as [-> | [-> | ->]] by lia.
  all: destruct b; vm_compute; reflexivity.
Qed.

(** X3. Every value of a tensor that [preprocessImage] returns lies
    between -2.12 and 2.65: the least is (0/255 - 0.485)/0.229 and the
    greatest (255/255 - 0.406)/0.225. *)
Theorem preprocessImage_value_range env path w tensor w1 :
  preprocessImage env path w = (inr tensor, w1) →
  Forall (λ v, le (decimal (-212) 100) v && le v (decimal 265 100) = true)
         (t_data tensor).
Proof.
  intros Hpre.
  destruct (preprocessImage_inv env path w tensor w1 Hpre) as (buffer & _ & Hlen & ->).
  apply tensor_of_Forall; [|exact Hlen]. intros c b Hc. apply normalized_range. exact Hc.
Qed.

Lemma preprocessImage_value_range_witness :
  ∃ tensor w1,
    preprocessImage (Examples.offline Examples.black_image) "eyelid.jpg" Examples.fresh
      = (inr tensor, w1)
    ∧ Forall (λ v, le (decimal (-212) 100) v && le v (decimal 265 100) = true)
             (t_data tensor).
Proof.
  pose proof (preprocessImage_ok (Examples.offline Examples.black_image) "eyelid.jpg"
                Examples.fresh Examples.black_image tt eq_refl eq_refl
                black_image_length) as Hpre.
  eexists _, _. split; [exact Hpre|].
  exact (preprocessImage_value_range _ _ _ _ _ Hpre).
Defined.

(* ===================================================================== *)
(** ** Further properties: validateImageFile and the upload filter *)
(* ===================================================================== *)

Lemma includes_true l x : includes l x = true ↔ x ∈ l.
Proof. unfold includes. apply bool_decide_eq_true. Qed.

Lemma includes_false l x : includes l x = false ↔ x ∉ l.
Proof. unfold includes. apply bool_decide_eq_false. Qed.

Section Validation.
Variables extname toLowerCase : string → string.

Lemma validateImageFile_unfold file :
  validateImageFile extname toLowerCase (Some file)
  = push_if (bad_extension extname toLowerCase file) "Invalid file extension"
      (push_if (bad_type file)
         "Invalid file type. Please upload JPEG, PNG, GIF, or WebP images only."
         (push_if (too_small file) "File size too small (minimum 1KB)"
            (push_if (too_large file) "File size exceeds 10MB limit" []))).
Proof. reflexivity. Qed.

Lemma size_tests_exclusive file : too_large file && too_small file = false.
Proof.
  unfold too_large, too_small. destruct (f_size file) as [size|]; [|reflexivity].
  cbn [from_option].
  destruct (10 * 1024 * 1024 <? size)%N eqn:H1; [|reflexivity].
  destruct (size <? 1024)%N eqn:H2; [|reflexivity].
  apply N.ltb_lt in H1, H2. lia.
Qed.

Lemma validateImageFile_nil_iff file :
  validateImageFile extname toLowerCase (Some file) = [] ↔
    (∀ size, f_size file = Some size → (1024 ≤ size ≤ 10485760)%N)
    ∧ f_mimetype file ∈ ["image/jpeg"; "image/jpg"; "image/png"; "image/gif"; "image/webp"]
    ∧ toLowerCase (extname (f_originalname file))
        ∈ [".jpg"; ".jpeg"; ".png"; ".gif"; ".webp"].
Proof.
  rewrite validateImageFile_unfold.
  assert (Hlarge : too_large file = false ↔
            ∀ size, f_size file = Some size → (size ≤ 10485760)%N).
  { unfold too_large. destruct (f_size file) as [size|]; cbn [from_option].
    - rewrite N.ltb_ge. split; [intros H s [= <-]; lia|intros H; specialize (H size eq_refl); lia].
    - split; [intros _ s Hs; discriminate|reflexivity]. }
  assert (Hsmall : too_small file = false ↔
            ∀ size, f_size file = Some size → (1024 ≤ size)%N).
  { unfold too_small. destruct (f_size file) as [size|]; cbn [from_option].
    - rewrite N.ltb_ge. split; [intros H s [= <-]; exact H|intros H; exact (H size eq_refl)].
    - split; [intros _ s Hs; discriminate|reflexivity]. }
  assert (Htype : bad_type file = false ↔ f_mimetype file ∈ allowedTypes).
  { unfold bad_type. rewrite negb_false_iff. apply includes_true. }
  assert (Hext : bad_extension extname toLowerCase file = false ↔
            toLowerCase (extname (f_originalname file)) ∈ allowedExtensions).
  { unfold bad_extension. rewrite negb_false_iff. apply includes_true. }
  unfold allowedTypes, allowedExtensions in *.
  rewrite <- Htype, <- Hext.
  split.
  - intros Hnil.
    destruct (too_large file), (too_small file), (bad_type file), (bad_extension extname toLowerCase file);
      try discriminate Hnil.
    split; [|split; reflexivity].
    intros size Hs. split; [apply Hsmall|apply Hlarge]; auto.
  - intros (Hsize & -> & ->).
    assert (too_large file = false) as -> by (apply Hlarge; intros s Hs; apply Hsize, Hs).
    assert (too_small file = false) as -> by (apply Hsmall; intros s Hs; apply Hsize, Hs).
    reflexivity.
Qed.

(** X4. [validateImageFile] answers ["No file provided"] alone for a
    missing file.  For a file it returns no error exactly when the size,
    if there is one, is between 1024 and 10485760 bytes, the MIME type is
    one of the five allowed and the lower-cased extension of the original
    name is one of the five allowed; a file without a size is not checked
    for size.  It never reports more than three errors, since the two size
    errors exclude each other. *)
Theorem validateImageFile_accepts file :
  validateImageFile extname toLowerCase None = ["No file provided"]
  ∧ (validateImageFile extname toLowerCase (Some file) = [] ↔
       (∀ size, f_size file = Some size → (1024 ≤ size ≤ 10485760)%N)
       ∧ f_mimetype file ∈ ["image/jpeg"; "image/jpg"; "image/png"; "image/gif"; "image/webp"]
       ∧ toLowerCase (extname (f_originalname file))
           ∈ [".jpg"; ".jpeg"; ".png"; ".gif"; ".webp"])
  ∧ length (validateImageFile extname toLowerCase (Some file)) ≤ 3.
Proof.
  split; [reflexivity|]. split; [apply validateImageFile_nil_iff|].
  rewrite validateImageFile_unfold.
  pose proof (size_tests_exclusive file) as Hex.
  destruct (too_large file), (too_small file), (bad_type file), (bad_extension extname toLowerCase file);
    cbn [push_if app length]; try lia; discriminate Hex.
Qed.


(** X6. The two validators do not accept the same files.  The remote
    variant accepts exactly the files whose MIME type is JPEG, JPG, PNG or
    WebP and whose size, if there is one, is at most 10485760 bytes: it
    checks neither the 1 KB minimum nor the extension, and it refuses GIF.
    So every file the local validator accepts, other than a GIF, is
    accepted by the remote one, and no GIF is. *)
Theorem validators_differ file :
  (hf_validateImageFile (Some file) = inr [] ↔
     f_mimetype file ∈ ["image/jpeg"; "image/jpg"; "image/png"; "image/webp"]
     ∧ ∀ size, f_size file = Some size → (size ≤ 10485760)%N)
  ∧ (validateImageFile extname toLowerCase (Some file) = [] →
     f_mimetype file ≠ "image/gif" →
     hf_validateImageFile (Some file) = inr [])
  ∧ (f_mimetype file = "image/gif" → hf_validateImageFile (Some file) ≠ inr []).
Proof.
  assert (Hhf : hf_validateImageFile (Some file) = inr [] ↔
     f_mimetype file ∈ ["image/jpeg"; "image/jpg"; "image/png"; "image/webp"]
     ∧ ∀ size, f_size file = Some size → (size ≤ 10485760)%N).
  { unfold hf_validateImageFile.
    destruct (includes _ (f_mimetype file)) eqn:Htype; cbn [negb push_if app].
    - apply includes_true in Htype.
      destruct (f_size file) as [size|]; cbn [from_option].
      + destruct (10 * 1024 * 1024 <? size)%N eqn:Hsz.
        * apply N.ltb_lt in Hsz. split; [discriminate|].
          intros [_ H]. specialize (H size eq_refl). lia.
        * apply N.ltb_ge in Hsz. split; [|reflexivity].
          intros _. split; [exact Htype|]. intros s [= <-]. lia.
      + split; [|reflexivity]. intros _. split; [exact Htype|]. intros s Hs. discriminate.
    - apply includes_false in Htype. split.
      + destruct (from_option _ false (f_size file)); discriminate.
      + intros [H _]. contradiction. }
  split; [exact Hhf|]. split.
  - intros Hlocal Hgif. apply Hhf.
    apply (proj1 (validateImageFile_nil_iff file)) in Hlocal.
    destruct Hlocal as (Hsize & Htype & _). split.
    + rewrite !elem_of_cons in Htype. rewrite !elem_of_cons.
      destruct Htype as [?|[?|[?|[?|[?|?]]]]];
        first [tauto|exfalso; eapply not_elem_of_nil; eassumption].
    + intros s Hs. apply Hsize, Hs.
  - intros Hgif Hacc. apply Hhf in Hacc as [Htype _]. rewrite Hgif in Htype.
    rewrite !elem_of_cons in Htype.
    destruct Htype as [?|[?|[?|[?|?]]]];
      first [discriminate|eapply not_elem_of_nil; eassumption].
Qed.

End Validation.

(* ===================================================================== *)
(** ** Further properties: the proxy analysis of the remote variant *)
(* ===================================================================== *)

Lemma SFltb_SFleb a b : SFltb a b = true → SFleb a b = true.
Proof.
  unfold SFltb, SFleb. destruct (SFcompare a b) as [[| |]|]; congruence.
Qed.

(** [Math.min] and [Math.max] with a finite first argument return one of
    the two arguments, the second only when it is strictly on that side. *)
Lemma min_finite s m e x :
  isNaN x = false →
  JSMath.min (S754_finite s m e) x = S754_finite s m e
  ∨ (JSMath.min (S754_finite s m e) x = x ∧ SFltb x (S754_finite s m e) = true).
Proof.
  intros Hnan. unfold JSMath.min. rewrite Hnan. cbn [isNaN orb].
  destruct (SFltb (S754_finite s m e) x); [left; reflexivity|].
  destruct (SFltb x (S754_finite s m e)); [right; split; reflexivity|].
  left. destruct x; reflexivity.
Qed.

Lemma max_finite s m e x :
  isNaN x = false →
  JSMath.max (S754_finite s m e) x = S754_finite s m e
  ∨ (JSMath.max (S754_finite s m e) x = x ∧ SFltb (S754_finite s m e) x = true).
Proof.
  intros Hnan. unfold JSMath.max. rewrite Hnan. cbn [isNaN orb].
  destruct (SFltb (S754_finite s m e) x); [right; split; reflexivity|].
  destruct (SFltb x (S754_finite s m e)); [left; reflexivity|].
  left. destruct x; reflexivity.
Qed.

Lemma max_nan a x : isNaN x = true → JSMath.max a x = NaN.
Proof. intros H. unfold JSMath.max. rewrite H, orb_true_r. reflexivity. Qed.

Lemma min_nan a x : isNaN x = true → JSMath.min a x = NaN.
Proof. intros H. unfold JSMath.min. rewrite H, orb_true_r. reflexivity. Qed.

(** [Math.max(0.6, Math.min(0.9, x))] is NaN or lies in [0.6, 0.9]. *)
Lemma clamp_range x :
  let c := JSMath.max (decimal 6 10) (JSMath.min (decimal 9 10) x) in
  isNaN c = true ∨ le (decimal 6 10) c && le c (decimal 9 10) = true.
Proof.
  cbn zeta.
  assert (H66 : le (decimal 6 10) (decimal 6 10) = true) by (vm_compute; reflexivity).
  assert (H69 : le (decimal 6 10) (decimal 9 10) = true) by (vm_compute; reflexivity).
  assert (H99 : le (decimal 9 10) (decimal 9 10) = true) by (vm_compute; reflexivity).
  assert (Hc6 : ∃ s m e, decimal 6 10 = S754_finite s m e)
    by (eexists _, _, _; vm_compute; reflexivity).
  assert (Hc9 : ∃ s m e, decimal 9 10 = S754_finite s m e)
    by (eexists _, _, _; vm_compute; reflexivity).
  destruct Hc6 as (s6 & m6 & e6 & Hc6). destruct Hc9 as (s9 & m9 & e9 & Hc9).
  rewrite Hc6, Hc9 in *.
  destruct (isNaN x) eqn:Hnan.
  { left. rewrite (min_nan _ x Hnan), (max_nan _ NaN eq_refl). reflexivity. }
  right.
  destruct (min_finite s9 m9 e9 x Hnan) as [-> | [-> Hx9]].
  - destruct (max_finite s6 m6 e6 (S754_finite s9 m9 e9) eq_refl) as [-> | [-> _]].
    + unfold le in *. rewrite H66, H69. reflexivity.
    + unfold le in *. rewrite H69, H99. reflexivity.
  - destruct (max_finite s6 m6 e6 x Hnan) as [-> | [-> H6x]].
    + unfold le in *. rewrite H66, H69. reflexivity.
    + unfold le. rewrite (SFltb_SFleb _ _ H6x), (SFltb_SFleb _ _ Hx9). reflexivity.
Qed.

(** X7. Whatever the proxy classifier answered, a result of
    [analyzeProxyResult] carries one of the two labels, the source tag
    "proxy_analysis", no default flag, and a confidence that is clamped to
    the interval [0.6, 0.9] (or is NaN, when a score was not a number). *)
Theorem analyzeProxyResult_clamped toLowerCase proxyResult r :
  analyzeProxyResult toLowerCase proxyResult = inr r →
  (prediction r = "Anemic" ∨ prediction r = "Non-anemic")
  ∧ modelSource r = "proxy_analysis"
  ∧ usingDefaultPrediction r = false
  ∧ ∃ c, confidence r = Some c
       ∧ (isNaN c = true ∨ le (decimal 6 10) c && le c (decimal 9 10) = true).
Proof.
  unfold analyzeProxyResult.
  destruct (proxy_items toLowerCase _ _) as [e|anemiaScore]; [discriminate|].
  intros H. apply (inj inr) in H. subst r.
  cbn [prediction modelSource usingDefaultPrediction confidence].
  split; [destruct (gt anemiaScore _); [left|right]; reflexivity|].
  split; [reflexivity|]. split; [reflexivity|].
  eexists. split; [reflexivity|]. apply clamp_range.
Qed.

Lemma analyzeProxyResult_clamped_witness :
  ∃ r, analyzeProxyResult (λ s, s)
         (Some [mkItem (Some "pale skin") (Some (decimal 9 10))]) = inr r
     ∧ prediction r = "Anemic"
     ∧ ∃ c, confidence r = Some c
          ∧ (isNaN c = true ∨ le (decimal 6 10) c && le c (decimal 9 10) = true).
Proof.
  eexists. split; [vm_compute; reflexivity|].
  split; [reflexivity|].
  match goal with |- ∃ c, confidence ?r = _ ∧ _ =>
    destruct (analyzeProxyResult_clamped (λ s, s)
                (Some [mkItem (Some "pale skin") (Some (decimal 9 10))]) r)
      as (_ & _ & _ & c & Hc & Hrange)
  end.
  - vm_compute. reflexivity.
  - exists c. split; [exact Hc|exact Hrange].
Defined.

Lemma proxy_items_neutral toLowerCase score items :
  Forall (λ item, ∃ l, pi_label item = Some l
                     ∧ suggests_pallor (toLowerCase l) = false
                     ∧ suggests_health (toLowerCase l) = false) items →
  proxy_items toLowerCase score items = inr score.
Proof.
  induction 1 as [|item items (l & Hl & Hp & Hh) _ IH]; [reflexivity|].
  cbn [proxy_items]. unfold proxy_item. rewrite Hl, Hp, Hh. exact IH.
Qed.

(** X8. When the answer of the proxy classifier is not an array, is empty,
    or holds only labels that suggest neither pallor nor health,
    [analyzeProxyResult] answers Non-anemic with the lowest confidence it
    can give, 0.6; the scores play no part. *)
Theorem analyzeProxyResult_neutral toLowerCase proxyResult :
  Forall (λ item, ∃ l, pi_label item = Some l
                     ∧ suggests_pallor (toLowerCase l) = false
                     ∧ suggests_health (toLowerCase l) = false)
         (default [] proxyResult) →
  analyzeProxyResult toLowerCase proxyResult
  = inr (mkResult "Non-anemic" (Some (decimal 6 10)) false "proxy_analysis" None None).
Proof.
  intros H. unfold analyzeProxyResult.
  rewrite (proxy_items_neutral toLowerCase _ _ H).
  vm_compute. reflexivity.
Qed.

Lemma analyzeProxyResult_neutral_witness :
  analyzeProxyResult (λ s, s) (Some [mkItem (Some "tabby cat") (Some (decimal 97 100))])
  = inr (mkResult "Non-anemic" (Some (decimal 6 10)) false "proxy_analysis" None None).
Proof.
  apply analyzeProxyResult_neutral. cbn [default].
  constructor; [|constructor].
  exists "tabby cat". split; [reflexivity|]. split; vm_compute; reflexivity.
Defined.

(* ===================================================================== *)
(** ** Further properties: what predict leaves and what the server keeps *)
(* ===================================================================== *)

(** The calls of sharp that one preprocessing makes. *)
Lemma preprocessImage_trace env path w :
  ∃ r, (preprocessImage env path w
          = (inl r, with_trace w (trace w ++ [EvSharpMetadata path]))
        ∨ preprocessImage env path w
          = (inl r, with_trace w (trace w ++ [EvSharpMetadata path; EvSharpRaw path])))
  ∨ ∃ t, preprocessImage env path w
          = (inr t, with_trace w (trace w ++ [EvSharpMetadata path; EvSharpRaw path])).
Proof.
  unfold preprocessImage. unfold_M. cbn [this files now timers trace].
  destruct (sharp_metadata env path) as [e|u].
  { eexists. left. left. reflexivity. }
  destruct (sharp_raw env path) as [e|buffer].
  { eexists. left. right. rewrite <- app_assoc. reflexivity. }
  destruct (negb _).
  - eexists. left. right. rewrite <- app_assoc. reflexivity.
  - exists (mkError ""). right. eexists. rewrite <- app_assoc. reflexivity.
Qed.

Lemma predict_label env path w r w' :
  predict env path w = (inr r, w') →
  prediction r = "Anemic" ∨ prediction r = "Non-anemic".
Proof.
  intros Hp. destruct (predict_try env path w) as [[e|r0] w1] eqn:Htry.
  - rewrite (predict_catches env path w e w1 Htry) in Hp.
    apply (f_equal fst) in Hp. cbn [fst] in Hp. apply (inj inr) in Hp. subst r.
    left. reflexivity.
  - rewrite (predict_passes env path w r0 w1 Htry) in Hp.
    apply (f_equal fst) in Hp. cbn [fst] in Hp. apply (inj inr) in Hp. subst r0.
    destruct (predict_try_result env path w r w1 Htry) as [[_ ->]|[outputTensor ->]].
    + left. reflexivity.
    + apply interpret_label.
Qed.

(** X9. [predict] only reads the manager: its fields, the files, the clock
    and the timers are as before.  It calls sharp's metadata first, then
    the raw decoding, then the session, each at most once and none out of
    that order; a result that is not the default means all three calls
    were made, and carries no error; a default result always carries the
    source tag "none" and no debug record, whatever is on disk. *)
Theorem predict_reads_only env path w r w' :
  predict env path w = (inr r, w') →
  this w' = this w ∧ files w' = files w ∧ now w' = now w ∧ timers w' = timers w
  ∧ (∃ calls, trace w' = trace w ++ calls
       ∧ calls `prefix_of` [EvSharpMetadata path; EvSharpRaw path; EvSessionRun]
       ∧ (usingDefaultPrediction r = false →
            calls = [EvSharpMetadata path; EvSharpRaw path; EvSessionRun]))
  ∧ (usingDefaultPrediction r = false → error r = None ∧ is_Some (debug r))
  ∧ (usingDefaultPrediction r = true →
       modelSource r = "none" ∧ debug r = None ∧ prediction r = "Anemic"
       ∧ confidence r = Some (decimal 8 10)).
Proof.
  intros Hp.
  assert (Hdefault : ∀ err calls,
    calls `prefix_of` [EvSharpMetadata path; EvSharpRaw path; EvSessionRun] →
    predict env path w = (inr (default_prediction err), with_trace w (trace w ++ calls)) →
    this w' = this w ∧ files w' = files w ∧ now w' = now w ∧ timers w' = timers w
    ∧ (∃ calls, trace w' = trace w ++ calls
         ∧ calls `prefix_of` [EvSharpMetadata path; EvSharpRaw path; EvSessionRun]
         ∧ (usingDefaultPrediction r = false →
              calls = [EvSharpMetadata path; EvSharpRaw path; EvSessionRun]))
    ∧ (usingDefaultPrediction r = false → error r = None ∧ is_Some (debug r))
    ∧ (usingDefaultPrediction r = true →
         modelSource r = "none" ∧ debug r = None ∧ prediction r = "Anemic"
         ∧ confidence r = Some (decimal 8 10))).
  { intros err calls Hpre Heq. rewrite Heq in Hp.
    pose proof (f_equal fst Hp) as H1. pose proof (f_equal snd Hp) as H2.
    cbn [fst snd] in H1, H2. apply (inj inr) in H1. subst r w'.
    cbn [with_trace this files now timers trace default_prediction
         usingDefaultPrediction modelSource debug prediction confidence error].
    repeat (split; [reflexivity|]).
    split; [exists calls; split; [reflexivity|split; [exact Hpre|discriminate]]|].
    split; [discriminate|]. intros _. repeat split. }
  destruct (sessionONNX (this w)) as [s|] eqn:Hs.
  - pose proof (predict_try_stages env path w s Hs) as Hst.
    unfold after_preprocess in Hst.
    destruct (preprocessImage_trace env path w) as [e [[Hpre|Hpre]|[tensor Hpre]]];
      rewrite Hpre in Hst.
    + apply (Hdefault (Some (message e)) [EvSharpMetadata path]).
      * exists [EvSharpRaw path; EvSessionRun]. reflexivity.
      * apply predict_catches. exact Hst.
    + apply (Hdefault (Some (message e)) [EvSharpMetadata path; EvSharpRaw path]).
      * exists [EvSessionRun]. reflexivity.
      * apply predict_catches. exact Hst.
    + destruct (existsb _ (t_data tensor)).
      { eapply (Hdefault (Some _) [EvSharpMetadata path; EvSharpRaw path]).
        - exists [EvSessionRun]. reflexivity.
        - exact (predict_catches env path w _ _ Hst). }
      cbn zeta in Hst. cbn [with_trace this files now timers trace] in Hst.
      rewrite <- app_assoc in Hst. cbn [app] in Hst.
      destruct (run s _) as [e'|results].
      { apply (Hdefault (Some (message e'))
                 [EvSharpMetadata path; EvSharpRaw path; EvSessionRun]).
        - reflexivity.
        - apply predict_catches. exact Hst. }
      destruct (list_find _ results) as [[j [name outputTensor]]|].
      * rewrite (predict_passes env path w _ _ Hst) in Hp.
        pose proof (f_equal fst Hp) as H1. pose proof (f_equal snd Hp) as H2.
        cbn [fst snd] in H1, H2. apply (inj inr) in H1. subst r w'.
        unfold model_result.
        cbn [this files now timers trace usingDefaultPrediction modelSource debug
             prediction confidence error].
        repeat (split; [reflexivity|]).
        split; [eexists; split; [reflexivity|split; [reflexivity|reflexivity]]|].
        split; [intros _; split; [reflexivity|eexists; reflexivity]|].
        discriminate.
      * eapply (Hdefault (Some _)
                 [EvSharpMetadata path; EvSharpRaw path; EvSessionRun]).
        -- reflexivity.
        -- exact (predict_catches env path w _ _ Hst).
  - apply (Hdefault None []).
    + apply prefix_nil.
    + rewrite app_nil_r. rewrite (predict_no_session env path w Hs).
      destruct w; reflexivity.
Qed.

Lemma predict_reads_only_witness :
  ∃ r w',
    predict (Examples.offline Examples.black_image) "eyelid.jpg"
      (Examples.serving [decimal 9 10]) = (inr r, w')
    ∧ this w' = this (Examples.serving [decimal 9 10])
    ∧ trace w' = [EvSharpMetadata "eyelid.jpg"; EvSharpRaw "eyelid.jpg"; EvSessionRun].
Proof.
  destruct (serving_predict [decimal 9 10] "eyelid.jpg") as [w' Hp].
  destruct (predict_reads_only _ _ _ _ _ Hp)
    as (Hthis & _ & _ & _ & (calls & Htr & _ & Hall) & _).
  eexists _, w'. split; [exact Hp|]. split; [exact Hthis|].
  rewrite Htr, (Hall eq_refl). reflexivity.
Defined.

(** X10. Whatever [predict] returns gets through the checks of
    [savePatientResult] for any user name that is not empty: the label is
    always one of the two, so "Invalid prediction value" is never thrown,
    and the confidence kept is a finite number, the one of the result when
    that is finite and 0.8 when it is missing, NaN or infinite. *)
Theorem predict_result_is_kept env path w r w' username :
  predict env path w = (inr r, w') →
  truthy (Some username) = true →
  ∃ c,
    savePatientResult_checks (Some username) (to_save r) = inr (prediction r, c)
    ∧ isFinite c = true
    ∧ (∀ x, confidence r = Some x → isFinite x = true → c = x)
    ∧ ((confidence r = None ∨ ∃ x, confidence r = Some x ∧ isFinite x = false) →
       c = decimal 8 10).
Proof.
  intros Hp Huser.
  pose proof (predict_label env path w r w' Hp) as Hlabel.
  assert (H08 : isFinite (decimal 8 10) = true) by (vm_compute; reflexivity).
  assert (Hchecks : savePatientResult_checks (Some username) (to_save r)
            = inr (prediction r,
                   if from_option isFinite false (confidence r)
                   then from_option id NaN (confidence r) else decimal 8 10)).
  { unfold savePatientResult_checks, to_save. cbn [ri_prediction ri_confidence].
    rewrite Huser. destruct Hlabel as [-> | ->]; reflexivity. }
  rewrite Hchecks. clear Hchecks.
  destruct (confidence r) as [x|]; cbn [from_option].
  - destruct (isFinite x) eqn:Hx.
    + exists x. split; [reflexivity|]. split; [exact Hx|]. split.
      * intros y [= <-] _. reflexivity.
      * intros [H|(y & [= <-] & Hy)]; [discriminate|congruence].
    + exists (decimal 8 10). split; [reflexivity|]. split; [exact H08|]. split.
      * intros y [= <-] Hy. congruence.
      * intros _. reflexivity.
  - exists (decimal 8 10). split; [reflexivity|]. split; [exact H08|]. split.
    + intros y Hy. discriminate.
    + intros _. reflexivity.
Qed.

Lemma predict_result_is_kept_witness :
  ∃ r w',
    predict (Examples.offline Examples.black_image) "eyelid.jpg" Examples.fresh
      = (inr r, w')
    ∧ savePatientResult_checks (Some "amina") (to_save r)
      = inr ("Anemic", decimal 8 10).
Proof.
  pose proof (predict_no_session (Examples.offline Examples.black_image) "eyelid.jpg"
                Examples.fresh eq_refl) as Hp.
  destruct (predict_result_is_kept _ _ _ _ _ "amina" Hp eq_refl)
    as (c & Hsave & _ & Hc & _).
  eexists _, _. split; [exact Hp|].
  rewrite Hsave. rewrite (Hc (decimal 8 10) eq_refl); [reflexivity|].
  vm_compute. reflexivity.
Defined.

(* ===================================================================== *)
(** ** Further properties: the cache, the download and the fallback *)
(* ===================================================================== *)

Lemma existsSync_Some fs p n : fs !! p = Some n → existsSync fs p = true.
Proof. intros H. unfold existsSync. apply bool_decide_eq_true. eauto. Qed.

Lemma existsSync_None fs p : fs !! p = None → existsSync fs p = false.
Proof.
  intros H. unfold existsSync. apply bool_decide_eq_false. rewrite H.
  intros [x Hx]. discriminate.
Qed.

(** The [catch] block makes no request and writes no file. *)
Lemma load_fallback_disk env w w1 :
  quiet w w1 →
  ∃ w', load_fallback env w1 = (inr (fallback_session env w1), w')
        ∧ attempt_post w (fallback_session env w1) w'
        ∧ files w' = files w1
        ∧ requests (trace w') = requests (trace w1).
Proof.
  intros Hq. unfold load_fallback, fallback_session.
  unfold bind at 1 2 3. unfold get_this at 1, get_files at 1.
  destruct (files w1 !! localModelPath (this w1)) as [n|] eqn:Hlocal.
  - rewrite (existsSync_Some _ _ _ Hlocal).
    unfold try_catch, bind at 1, create_session. unfold_M.
    cbn [this files now timers trace]. rewrite Hlocal.
    destruct Hq as (Hthis & Hnow & Htm).
    destruct (ort_create env (Some n)) as [e|s].
    + unfold end_without_session. unfold_M.
      cbn [this files now timers trace modelLoadAttempts maxLoadAttempts set_isLoading].
      destruct (_ <? _)%N eqn:Hgate.
      * eexists. split; [reflexivity|]. cbn [this files now timers trace].
        split; [|split; [reflexivity|rewrite requests_app, app_nil_r; reflexivity]].
        unfold attempt_post, ended_without_session. cbn [this files now timers trace].
        rewrite <- Hthis, Hgate, Hnow, Htm. repeat split.
      * eexists. split; [reflexivity|]. cbn [this files now timers trace].
        split; [|split; [reflexivity|rewrite requests_app, app_nil_r; reflexivity]].
        unfold attempt_post, ended_without_session. cbn [this files now timers trace].
        rewrite <- Hthis, Hgate, Hnow, Htm. repeat split.
    + unfold adopt_session. unfold_M. cbn [this files now timers trace].
      eexists. split; [reflexivity|]. cbn [this files now timers trace].
      split; [|split; [reflexivity|rewrite requests_app, app_nil_r; reflexivity]].
      unfold attempt_post, adopted. cbn [this files now timers trace].
      rewrite Hthis, Hnow, Htm. repeat split.
  - rewrite (existsSync_None _ _ Hlocal). unfold ret at 1.
    destruct (end_without_session_spec w w1 Hq) as (w' & Heq & Hpost).
    exists w'. split; [exact Heq|]. split; [exact Hpost|].
    revert Heq. unfold end_without_session. unfold_M.
    destruct (_ <? _)%N; intros [= <-]; split; reflexivity.
Qed.

(** An attempt that finds the cache file goes through
    [InferenceSession.create] on it and, if that fails, through the
    fallback; it makes no request and writes no file. *)
Lemma loadModel_attempt_cached env w node :
  files w !! cachedModelPath (this w) = Some node →
  let r := match ort_create env (Some node) with
           | inr s => Some s
           | inl _ => fallback_session env w
           end in
  ∃ w', loadModel_attempt env w = (inr r, w')
        ∧ attempt_post w r w'
        ∧ files w' = files w
        ∧ requests (trace w') = requests (trace w).
Proof.
  intros Hcached. cbn zeta. unfold loadModel_attempt, try_catch.
  unfold bind at 1 2. unfold get_this at 1, get_files at 1.
  rewrite (existsSync_Some _ _ _ Hcached).
  unfold bind at 1, create_session. unfold_M. cbn [this files now timers trace].
  rewrite Hcached.
  destruct (ort_create env (Some node)) as [e|s].
  - set (w1 := mkWorld (this w) (files w) (now w) (timers w)
                       (trace w ++ [EvSessionCreate (cachedModelPath (this w))])).
    assert (Hq : quiet w w1) by (repeat split).
    destruct (load_fallback_disk env w w1 Hq) as (w' & Heq & Hpost & Hfiles & Hreq).
    exists w'. split; [exact Heq|]. split; [exact Hpost|]. split; [exact Hfiles|].
    rewrite Hreq. unfold w1. cbn [trace]. rewrite requests_app, app_nil_r. reflexivity.
  - unfold adopt_session. unfold_M. cbn [this files now timers trace].
    eexists. split; [reflexivity|]. cbn [this files now timers trace].
    split; [repeat split|]. split; [reflexivity|].
    rewrite requests_app, app_nil_r. reflexivity.
Qed.

Lemma loadModel_idle_eq env k w :
  isLoading (this w) = false →
  loadModel env k w
  = (let (r, w') := loadModel_attempt env (begun w) in
     match r with
     | inl e => (inl e, w')
     | inr s => (inr (Resolved s), w')
     end).
Proof.
  intros H. unfold loadModel. unfold bind. rewrite (loadModel_enter_idle k w H).
  destruct (loadModel_attempt env (begun w)) as [[e|s] w']; reflexivity.
Qed.

(** X11. When the cache file is there and opens as a model, [loadModel]
    adopts that session without any request to the network and without
    writing a file; the attempt is counted, the flag is down, no retry is
    set, and the source tag reads "huggingface_cached". *)
Theorem loadModel_cache_hit env k w node s :
  isLoading (this w) = false →
  files w !! cachedModelPath (this w) = Some node →
  ort_create env (Some node) = inr s →
  ∃ w',
    loadModel env k w = (inr (Resolved (Some s)), w')
    ∧ sessionONNX (this w') = Some s
    ∧ modelLoadAttempts (this w') = (modelLoadAttempts (this w) + 1)%N
    ∧ isLoading (this w') = false
    ∧ timers w' = timers w
    ∧ files w' = files w
    ∧ requests (trace w') = requests (trace w)
    ∧ getModelSource w' = (inr "huggingface_cached", w').
Proof.
  intros Hidle Hcached Hcreate.
  destruct (loadModel_attempt_cached env (begun w) node Hcached)
    as (w' & Heq & Hpost & Hfiles & Hreq).
  rewrite Hcreate in Heq, Hpost.
  exists w'. split; [rewrite (loadModel_idle_eq env k w Hidle), Heq; reflexivity|].
  destruct Hpost as (Hnow & Hthis & Htm).
  rewrite Hthis, Htm, Hfiles, Hreq. repeat (split; [reflexivity|]).
  rewrite getModelSource_eq, Hfiles, Hthis. unfold source_tag.
  cbn [begun files this cachedModelPath set_isLoading set_sessionONNX
       incr_modelLoadAttempts].
  rewrite (existsSync_Some _ _ _ Hcached). reflexivity.
Qed.

Lemma loadModel_cache_hit_witness :
  ∃ w',
    loadModel LoadExamples.healthy Detached LoadExamples.cached
      = (inr (Resolved (Some LoadExamples.a_session)), w')
    ∧ requests (trace w') = []
    ∧ files w' = files LoadExamples.cached.
Proof.
  destruct (loadModel_cache_hit LoadExamples.healthy Detached LoadExamples.cached
              (File [x08; x07]) LoadExamples.a_session)
    as (w' & Heq & _ & _ & _ & _ & Hfiles & Hreq & _).
  - reflexivity.
  - vm_compute. reflexivity.
  - reflexivity.
  - exists w'. split; [exact Heq|]. split; [exact Hreq|exact Hfiles].
Defined.

Lemma attempt_post_fields w r w' :
  attempt_post w r w' →
  cachedModelPath (this w') = cachedModelPath (this w)
  ∧ localModelPath (this w') = localModelPath (this w)
  ∧ cacheDir (this w') = cacheDir (this w)
  ∧ modelPath (this w') = modelPath (this w)
  ∧ modelLoadAttempts (this w') = modelLoadAttempts (this w)
  ∧ maxLoadAttempts (this w') = maxLoadAttempts (this w)
  ∧ isLoading (this w') = false
  ∧ sessionONNX (this w') = from_option Some (sessionONNX (this w)) r.
Proof.
  destruct r as [s|]; intros (_ & -> & _); repeat split.
Qed.

(** With a file at the cache path, a call of [loadModel], in whatever state
    the manager is, neither asks the network nor writes to the disk. *)
Lemma loadModel_cached_disk env k w node :
  files w !! cachedModelPath (this w) = Some node →
  files (loadModel env k w).2 = files w
  ∧ requests (trace (loadModel env k w).2) = requests (trace w)
  ∧ cachedModelPath (this (loadModel env k w).2) = cachedModelPath (this w).
Proof.
  intros Hcached. destruct (isLoading (this w)) eqn:Hflag.
  - unfold loadModel, bind. rewrite (loadModel_enter_busy k w Hflag).
    repeat split.
  - rewrite (loadModel_idle_eq env k w Hflag).
    destruct (loadModel_attempt_cached env (begun w) node Hcached)
      as (w' & Heq & Hpost & Hfiles & Hreq).
    rewrite Heq. cbn [snd]. rewrite Hfiles, Hreq.
    apply attempt_post_fields in Hpost as (-> & _). repeat split.
Qed.

Lemma load_times_cached_disk env n : ∀ w node,
  files w !! cachedModelPath (this w) = Some node →
  files (load_times env n w) = files w
  ∧ requests (trace (load_times env n w)) = requests (trace w).
Proof.
  induction n as [|n IH]; intros w node Hcached; [split; reflexivity|].
  cbn [load_times].
  destruct (loadModel_cached_disk env Detached w node Hcached) as (Hf & Hr & Hp).
  destruct (IH (loadModel env Detached w).2 node) as (Hf' & Hr').
  { rewrite Hf, Hp. exact Hcached. }
  rewrite Hf', Hr', Hf, Hr. split; reflexivity.
Qed.

(** X12. Once anything sits at the cache path, whether a model, an empty
    file or a directory, no sequence of calls of [loadModel] makes a
    request to the network or changes the disk: the cached file is never
    replaced. *)
Theorem cached_file_stops_downloads env n w node :
  files w !! cachedModelPath (this w) = Some node →
  files (load_times env n w) = files w
  ∧ requests (trace (load_times env n w)) = requests (trace w).
Proof. apply load_times_cached_disk. Qed.

Lemma cached_file_stops_downloads_witness :
  files (load_times LoadExamples.healthy 5 LoadExamples.cached)
    = files LoadExamples.cached
  ∧ requests (trace (load_times LoadExamples.healthy 5 LoadExamples.cached)) = [].
Proof.
  apply (cached_file_stops_downloads LoadExamples.healthy 5 LoadExamples.cached
           (File [x08; x07])).
  vm_compute. reflexivity.
Defined.

Lemma fallback_session_ext env w w' :
  files w' = files w → localModelPath (this w') = localModelPath (this w) →
  fallback_session env w' = fallback_session env w.
Proof. intros Hf Hp. unfold fallback_session. rewrite Hf, Hp. reflexivity. Qed.

(** X13. A cache file that does not open as a model, with no usable copy
    at the fallback path, wedges the manager: every further call of
    [loadModel] counts one more attempt (the counter has no ceiling of its
    own here) and ends with the session as it was. *)
Theorem corrupt_cache_never_loads env e n : ∀ w node,
  isLoading (this w) = false →
  files w !! cachedModelPath (this w) = Some node →
  ort_create env (Some node) = inl e →
  fallback_session env w = None →
  sessionONNX (this (load_times env n w)) = sessionONNX (this w)
  ∧ modelLoadAttempts (this (load_times env n w))
    = (modelLoadAttempts (this w) + N.of_nat n)%N
  ∧ isLoading (this (load_times env n w)) = false.
Proof.
  induction n as [|n IH]; intros w node Hidle Hcached Hcreate Hfb.
  - cbn [load_times]. rewrite N.add_0_r. repeat split. exact Hidle.
  - cbn [load_times]. rewrite (loadModel_idle_eq env Detached w Hidle).
    destruct (loadModel_attempt_cached env (begun w) node Hcached)
      as (w' & Heq & Hpost & Hfiles & Hreq).
    rewrite Hcreate in Heq, Hpost.
    rewrite (fallback_session_ext env w (begun w) eq_refl eq_refl), Hfb in Heq, Hpost.
    rewrite Heq. cbn [snd].
    apply attempt_post_fields in Hpost
      as (Hcp & Hlp & _ & _ & Hatt & _ & Hflag & Hsess).
    destruct (IH w' node) as (Hs' & Ha' & Hl').
    + exact Hflag.
    + rewrite Hfiles, Hcp. exact Hcached.
    + exact Hcreate.
    + rewrite (fallback_session_ext env w w'); [exact Hfb|exact Hfiles|exact Hlp].
    + rewrite Hs', Ha', Hl', Hsess, Hatt.
      cbn [begun this modelLoadAttempts incr_modelLoadAttempts set_isLoading
           sessionONNX from_option].
      repeat split. lia.
Qed.

Lemma corrupt_cache_never_loads_witness :
  sessionONNX (this (load_times (Examples.offline []) 4 LoadExamples.cached)) = None
  ∧ modelLoadAttempts (this (load_times (Examples.offline []) 4 LoadExamples.cached))
    = 4%N
  ∧ isLoading (this (load_times (Examples.offline []) 4 LoadExamples.cached)) = false.
Proof.
  apply (corrupt_cache_never_loads (Examples.offline []) (mkError "Load model failed") 4
           LoadExamples.cached (File [x08; x07])).
  - reflexivity.
  - vm_compute. reflexivity.
  - reflexivity.
  - vm_compute. reflexivity.
Defined.

(** *** What a download leaves on the disk *)

Lemma unlink_ignore_frame p w :
  ∃ w', unlink_ignore p w = (inr tt, w')
        ∧ trace w' = trace w
        ∧ ∀ q, q ≠ p → files w' !! q = files w !! q.
Proof.
  unfold unlink_ignore, unlinkSync. unfold_M.
  destruct (files w !! p) as [[c|]|]; eexists; (split; [reflexivity|]);
    cbn [files trace]; (split; [reflexivity|]); intros q Hq;
    rewrite ?lookup_delete_ne by congruence; reflexivity.
Qed.

Lemma follow_redirect_frame env cached t loc w r w' :
  follow_redirect env cached t loc w = (r, w') →
  ∀ q, q ≠ cached → files w' !! q = files w !! q.
Proof.
  unfold follow_redirect. unfold bind at 1. unfold emit at 1.
  destruct (https_get env t loc) as [e| |code msg l body].
  - unfold bind.
    match goal with |- context [unlink_ignore ?p ?w0] =>
      destruct (unlink_ignore_frame p w0) as (w1 & -> & _ & Hfr) end.
    unfold throw. intros [= <- <-]. exact Hfr.
  - unfold throw. intros [= <- <-]. reflexivity.
  - unfold_M. intros [= <- <-] q Hq. cbn [files].
    rewrite lookup_insert_ne by congruence. reflexivity.
Qed.

(** A download writes at the cache path only, and its first request goes
    to the model URL. *)
Lemma downloadModel_frame env w r w' :
  downloadModel env w = (r, w') →
  (∀ q, q ≠ cachedModelPath (this w) → files w' !! q = files w !! q)
  ∧ ∃ rest, requests (trace w') = requests (trace w) ++ Some (modelPath (this w)) :: rest.
Proof.
  unfold downloadModel.
  unfold bind at 1 2 3 4. unfold get_this, set_files at 1, get_now, emit at 1.
  cbn [this files now timers trace].
  destruct (https_get env (now w) _) as [e| |code msg loc body].
  - unfold bind.
    match goal with |- context [unlink_ignore ?p ?w0] =>
      destruct (unlink_ignore_frame p w0) as (w1 & -> & Htr & Hfr) end.
    unfold throw. intros [= <- <-]. split.
    + intros q Hq. rewrite (Hfr q Hq). cbn [files].
      rewrite lookup_insert_ne by congruence. reflexivity.
    + exists []. rewrite Htr. cbn [trace]. rewrite requests_app. reflexivity.
  - unfold throw. intros [= <- <-]. cbn [files trace]. split.
    + intros q Hq. rewrite lookup_insert_ne by congruence. reflexivity.
    + exists []. rewrite requests_app. reflexivity.
  - destruct (code =? 200)%Z.
    { unfold_M. intros [= <- <-]. cbn [files trace]. split.
      - intros q Hq. rewrite !lookup_insert_ne by congruence. reflexivity.
      - exists []. rewrite requests_app. reflexivity. }
    destruct ((code =? 302)%Z || (code =? 301)%Z).
    + intros Hfollow. split.
      * intros q Hq. rewrite (follow_redirect_frame _ _ _ _ _ _ _ Hfollow q Hq).
        cbn [files]. rewrite lookup_insert_ne by congruence. reflexivity.
      * revert Hfollow. unfold follow_redirect. unfold bind at 1. unfold emit at 1.
        cbn [this files now timers trace].
        destruct (https_get env (now w) loc) as [e| |code2 msg2 l2 body2].
        -- unfold bind.
           match goal with |- context [unlink_ignore ?p ?w0] =>
             destruct (unlink_ignore_frame p w0) as (w1 & -> & Htr & _) end.
           unfold throw. intros [= <- <-]. exists [loc]. rewrite Htr. cbn [trace].
           rewrite !requests_app, <- app_assoc. reflexivity.
        -- unfold throw. intros [= <- <-]. exists [loc]. cbn [trace].
           rewrite !requests_app, <- app_assoc. reflexivity.
        -- unfold_M. intros [= <- <-]. exists [loc]. cbn [trace].
           rewrite !requests_app, <- app_assoc. reflexivity.
    + unfold throw. intros [= <- <-]. cbn [files trace]. split.
      * intros q Hq. rewrite lookup_insert_ne by congruence. reflexivity.
      * exists []. rewrite requests_app. reflexivity.
Qed.

(** An attempt that finds no cache file downloads first. *)
Lemma loadModel_attempt_download env w d w1 :
  files w !! cachedModelPath (this w) = None →
  downloadModel env w = (d, w1) →
  let r := match d with
           | inl _ => fallback_session env w1
           | inr _ =>
               match ort_create env (files w1 !! cachedModelPath (this w)) with
               | inr s => Some s
               | inl _ => fallback_session env w1
               end
           end in
  ∃ w', loadModel_attempt env w = (inr r, w')
        ∧ attempt_post w r w'
        ∧ files w' = files w1
        ∧ requests (trace w') = requests (trace w1).
Proof.
  intros Hcached Hd. cbn zeta.
  pose proof (downloadModel_quiet env w d w1 Hd) as Hq.
  unfold loadModel_attempt, try_catch.
  unfold bind at 1 2. unfold get_this at 1, get_files at 1.
  rewrite (existsSync_None _ _ Hcached).
  unfold bind at 1. rewrite Hd.
  destruct d as [e|[]].
  - exact (load_fallback_disk env w w1 Hq).
  - unfold bind at 1, create_session. unfold_M. cbn [this files now timers trace].
    destruct (ort_create env (files w1 !! cachedModelPath (this w))) as [e|s].
    + set (w2 := mkWorld (this w1) (files w1) (now w1) (timers w1)
                         (trace w1 ++ [EvSessionCreate (cachedModelPath (this w))])).
      assert (Hq2 : quiet w w2) by exact Hq.
      destruct (load_fallback_disk env w w2 Hq2) as (w' & Heq & Hpost & Hfiles & Hreq).
      exists w'. split; [exact Heq|]. split; [exact Hpost|]. split; [exact Hfiles|].
      rewrite Hreq. unfold w2. cbn [trace]. rewrite requests_app, app_nil_r. reflexivity.
    + unfold adopt_session. unfold_M. cbn [this files now timers trace].
      eexists. split; [reflexivity|]. cbn [this files now timers trace].
      destruct Hq as (Hthis & Hnow & Htm).
      split; [rewrite Hthis, Hnow, Htm; repeat split|]. split; [reflexivity|].
      rewrite requests_app, app_nil_r. reflexivity.
Qed.

Lemma downloadModel_http_error env w code msg loc body :
  https_get env (now w) (Some (modelPath (this w))) = Response code msg loc body →
  code ≠ 200%Z → code ≠ 301%Z → code ≠ 302%Z →
  downloadModel env w
  = (inl (mkError ("HTTP " +:+ pretty code +:+ ": " +:+ msg)),
     mkWorld (this w) (<[cachedModelPath (this w) := File []]> (files w)) (now w)
             (timers w) (trace w ++ [EvHttpsGet (Some (modelPath (this w)))])).
Proof.
  intros Hget H200 H301 H302. unfold downloadModel.
  unfold bind at 1 2 3 4. unfold get_this, set_files at 1, get_now, emit at 1.
  cbn [this files now timers trace]. rewrite Hget.
  destruct (Z.eqb_spec code 200) as [|_]; [contradiction|].
  destruct (Z.eqb_spec code 302) as [|_]; [contradiction|].
  destruct (Z.eqb_spec code 301) as [|_]; [contradiction|].
  reflexivity.
Qed.

Lemma downloadModel_transport_error env w e :
  files w !! cachedModelPath (this w) = None →
  https_get env (now w) (Some (modelPath (this w))) = ReqError e →
  downloadModel env w
  = (inl e,
     mkWorld (this w) (files w) (now w)
             (timers w) (trace w ++ [EvHttpsGet (Some (modelPath (this w)))])).
Proof.
  intros Hnone Hget. unfold downloadModel.
  unfold bind at 1 2 3 4. unfold get_this, set_files at 1, get_now, emit at 1.
  cbn [this files now timers trace]. rewrite Hget.
  unfold bind. erewrite unlink_ignore_file by (cbn [files]; apply lookup_insert_eq).
  cbn [this files now timers trace]. rewrite delete_insert_id by exact Hnone.
  reflexivity.
Qed.





(** X16. When the cache file does not open and the fallback copy does,
    the session in use comes from the fallback file while the status still
    reads "huggingface_cached": the tag tells what is on the disk, not
    what was loaded. *)
Theorem fallback_is_reported_as_cached env k w node e n s :
  isLoading (this w) = false →
  files w !! cachedModelPath (this w) = Some node →
  ort_create env (Some node) = inl e →
  files w !! localModelPath (this w) = Some n →
  ort_create env (Some n) = inr s →
  ∃ w',
    loadModel env k w = (inr (Resolved (Some s)), w')
    ∧ sessionONNX (this w') = Some s
    ∧ st_isLoaded (status_of w') = true
    ∧ st_modelSource (status_of w') = "huggingface_cached"
    ∧ st_cached (status_of w') = true.
Proof.
  intros Hidle Hcached Hbad Hlocal Hgood.
  destruct (loadModel_attempt_cached env (begun w) node Hcached)
    as (w' & Heq & Hpost & Hfiles & Hreq).
  rewrite Hbad in Heq, Hpost. unfold fallback_session in Heq, Hpost.
  cbn [begun files this localModelPath set_isLoading incr_modelLoadAttempts]
    in Heq, Hpost.
  rewrite Hlocal, Hgood in Heq, Hpost.
  exists w'. split; [rewrite (loadModel_idle_eq env k w Hidle), Heq; reflexivity|].
  apply attempt_post_fields in Hpost as (Hcp & Hlp & _ & _ & _ & _ & _ & Hsess).
  cbn [from_option] in Hsess.
  cbn [begun this cachedModelPath set_isLoading incr_modelLoadAttempts] in Hcp.
  split; [exact Hsess|].
  unfold status_of. cbn [st_isLoaded st_modelSource st_cached].
  rewrite Hsess, Hfiles, Hcp. cbn [begun files]. unfold source_tag.
  rewrite (existsSync_Some _ _ _ Hcached).
  split; [apply bool_decide_eq_true; eauto|]. split; reflexivity.
Qed.

Lemma fallback_is_reported_as_cached_witness :
  ∃ w',
    loadModel CacheExamples.picky Detached CacheExamples.stale
      = (inr (Resolved (Some LoadExamples.a_session)), w')
    ∧ st_modelSource (status_of w') = "huggingface_cached".
Proof.
  destruct (fallback_is_reported_as_cached CacheExamples.picky Detached
              CacheExamples.stale (File []) (mkError "Load model failed")
              (File [x08; x07]) LoadExamples.a_session)
    as (w' & Heq & _ & _ & Hsrc & _).
  - reflexivity.
  - vm_compute. reflexivity.
  - reflexivity.
  - vm_compute. reflexivity.
  - reflexivity.
  - exists w'. split; [exact Heq|exact Hsrc].
Defined.

(** *** The frame of a load *)

Lemma loadModel_frame env k w q :
  q ≠ cachedModelPath (this w) →
  files (loadModel env k w).2 !! q = files w !! q.
Proof.
  intros Hq. destruct (isLoading (this w)) eqn:Hflag.
  - unfold loadModel, bind. rewrite (loadModel_enter_busy k w Hflag). reflexivity.
  - rewrite (loadModel_idle_eq env k w Hflag).
    destruct (files (begun w) !! cachedModelPath (this (begun w))) as [node|] eqn:Hc.
    + destruct (loadModel_attempt_cached env (begun w) node Hc)
        as (w' & Heq & _ & Hfiles & _).
      rewrite Heq. cbn [snd]. rewrite Hfiles. reflexivity.
    + destruct (downloadModel env (begun w)) as [d wd] eqn:Hd.
      destruct (loadModel_attempt_download env (begun w) d wd Hc Hd)
        as (w' & Heq & _ & Hfiles & _).
      rewrite Heq. cbn [snd]. rewrite Hfiles.
      destruct (downloadModel_frame env (begun w) d wd Hd) as (Hfr & _).
      exact (Hfr q Hq).
Qed.

Lemma loadModel_returns env k w :
  ∃ o, (loadModel env k w).1 = inr o
       ∧ (isLoading (this w) = false → ∃ r, o = Resolved r)
       ∧ (isLoading (this w) = true → o = Parked).
Proof.
  destruct (isLoading (this w)) eqn:Hflag.
  - unfold loadModel, bind. rewrite (loadModel_enter_busy k w Hflag).
    exists Parked. split; [reflexivity|]. split; [discriminate|reflexivity].
  - destruct (loadModel_idle env k w Hflag) as (r & w' & Heq & _).
    rewrite Heq. exists (Resolved r). split; [reflexivity|].
    split; [eauto|discriminate].
Qed.

Lemma status_after_eq o w :
  status_after o w
  = (inr (match o with Resolved _ => Some (status_of w) | Parked => None end), w).
Proof.
  destruct o; [|reflexivity]. unfold status_after, bind. rewrite getModelStatus_eq.
  reflexivity.
Qed.

Lemma initialize_eq env k w :
  ∃ o, (loadModel env k (make_cache_dir w).2).1 = inr o
       ∧ initialize env k w
         = (inr (match o with
                 | Resolved _ => Some (status_of (loadModel env k (make_cache_dir w).2).2)
                 | Parked => None
                 end),
            (loadModel env k (make_cache_dir w).2).2).
Proof.
  destruct (make_cache_dir_quiet w) as (w0 & Hmk & _).
  unfold initialize. unfold bind at 1. rewrite Hmk. cbn [snd].
  destruct (loadModel_returns env k w0) as (o & Ho & _).
  exists o. split; [exact Ho|]. unfold bind.
  destruct (loadModel env k w0) as [res w']. cbn [fst snd] in *. subst res.
  apply status_after_eq.
Qed.

Lemma make_cache_dir_files w :
  (make_cache_dir w).2
  = mkWorld (this w)
            (if existsSync (files w) (cacheDir (this w)) then files w
             else <[cacheDir (this w) := Dir]> (files w))
            (now w) (timers w) (trace w).
Proof.
  unfold make_cache_dir. unfold_M.
  destruct (existsSync _ _); cbn [negb snd]; [destruct w|]; reflexivity.
Qed.

(** X17. A load writes at the cache path and nowhere else; [initialize]
    may in addition create the cache directory.  In particular the model
    file shipped beside the code is never modified. *)
Theorem loadModel_touches_only_cache_path env k w q :
  q ≠ cachedModelPath (this w) →
  files (loadModel env k w).2 !! q = files w !! q
  ∧ (q ≠ cacheDir (this w) → files (initialize env k w).2 !! q = files w !! q).
Proof.
  intros Hq. split; [exact (loadModel_frame env k w q Hq)|]. intros Hdir.
  destruct (initialize_eq env k w) as (o & _ & ->). cbn [snd].
  rewrite loadModel_frame by (rewrite make_cache_dir_files; exact Hq).
  rewrite make_cache_dir_files. cbn [files].
  destruct (existsSync _ _); [reflexivity|].
  rewrite lookup_insert_ne by congruence. reflexivity.
Qed.

Lemma loadModel_touches_only_cache_path_witness :
  let q := localModelPath (this CacheExamples.stale) in
  files (loadModel CacheExamples.picky Detached CacheExamples.stale).2 !! q
    = Some (File [x08; x07])
  ∧ files (initialize CacheExamples.picky Detached CacheExamples.stale).2 !! q
    = Some (File [x08; x07]).
Proof.
  cbn zeta.
  destruct (loadModel_touches_only_cache_path CacheExamples.picky Detached
              CacheExamples.stale (localModelPath (this CacheExamples.stale)))
    as (Hload & Hinit).
  - vm_compute. discriminate.
  - split.
    + rewrite Hload. vm_compute. reflexivity.
    + rewrite Hinit; [vm_compute; reflexivity|]. vm_compute. discriminate.
Defined.

(** X18. [initialize] on a manager that is not loading runs one attempt to
    its end and answers with the status read after it: the flag is down,
    the counter is one higher, and the cache directory exists. *)
Theorem initialize_idle_returns_status env k w :
  isLoading (this w) = false →
  cacheDir (this w) ≠ cachedModelPath (this w) →
  ∃ w',
    initialize env k w = (inr (Some (status_of w')), w')
    ∧ st_isLoading (status_of w') = false
    ∧ st_loadAttempts (status_of w') = (modelLoadAttempts (this w) + 1)%N
    ∧ is_Some (files w' !! cacheDir (this w))
    ∧ now w' = now w.
Proof.
  intros Hidle Hdir.
  destruct (initialize_eq env k w) as (o & Ho & Heq).
  assert (Hidle0 : isLoading (this (make_cache_dir w).2) = false).
  { rewrite make_cache_dir_files. exact Hidle. }
  destruct (loadModel_idle env k _ Hidle0) as (r & w' & Hload & Hpost).
  rewrite Hload in Ho, Heq. cbn [fst snd] in Ho, Heq. apply (inj inr) in Ho. subst o.
  exists w'. split; [exact Heq|].
  assert (Hfr : files w' !! cacheDir (this w)
                = files (make_cache_dir w).2 !! cacheDir (this w)).
  { pose proof (loadModel_frame env k (make_cache_dir w).2 (cacheDir (this w))) as Hf.
    rewrite Hload in Hf. apply Hf. rewrite make_cache_dir_files. exact Hdir. }
  assert (Hnow : now w' = now w).
  { destruct r; destruct Hpost as (-> & _); rewrite make_cache_dir_files; reflexivity. }
  apply attempt_post_fields in Hpost as (_ & _ & _ & _ & Hatt & _ & Hflag & _).
  unfold status_of. cbn [st_isLoading st_loadAttempts].
  rewrite Hflag, Hatt. split; [reflexivity|].
  split; [rewrite make_cache_dir_files; reflexivity|].
  split; [|exact Hnow].
  rewrite Hfr, make_cache_dir_files. cbn [files].
  destruct (existsSync (files w) (cacheDir (this w))) eqn:Hex.
  - unfold existsSync in Hex. apply bool_decide_eq_true in Hex. exact Hex.
  - rewrite lookup_insert_eq. eauto.
Qed.

Lemma initialize_idle_returns_status_witness :
  ∃ w',
    initialize (Examples.offline []) Detached Examples.fresh
      = (inr (Some (status_of w')), w')
    ∧ st_isLoading (status_of w') = false
    ∧ st_loadAttempts (status_of w') = 1%N.
Proof.
  destruct (initialize_idle_returns_status (Examples.offline []) Detached Examples.fresh)
    as (w' & Heq & Hflag & Hatt & _).
  - reflexivity.
  - vm_compute. discriminate.
  - exists w'. split; [exact Heq|]. split; [exact Hflag|exact Hatt].
Defined.

Lemma loadModel_session env k w :
  (∃ s, sessionONNX (this (loadModel env k w).2) = Some s
        ∧ (loadModel env k w).1 = inr (Resolved (Some s)))
  ∨ sessionONNX (this (loadModel env k w).2) = sessionONNX (this w).
Proof.
  destruct (isLoading (this w)) eqn:Hflag.
  - right. unfold loadModel, bind. rewrite (loadModel_enter_busy k w Hflag). reflexivity.
  - destruct (loadModel_idle env k w Hflag) as (r & w' & Heq & Hpost).
    rewrite Heq. cbn [fst snd].
    apply attempt_post_fields in Hpost as (_ & _ & _ & _ & _ & _ & _ & Hsess).
    destruct r as [s|]; [left; exists s; split; [exact Hsess|reflexivity]|].
    right. exact Hsess.
Qed.

Lemma retryLoadModel_world env k w :
  (retryLoadModel env k w).2
  = if (modelLoadAttempts (this w) <? maxLoadAttempts (this w))%N
    then (loadModel env k w).2 else w.
Proof.
  unfold retryLoadModel. unfold bind at 1. unfold get_this.
  destruct (_ <? _)%N.
  - destruct (loadModel_returns env k w) as (o & Ho & _).
    unfold bind. destruct (loadModel env k w) as [res w']. cbn [fst snd] in *.
    subst res. rewrite status_after_eq. reflexivity.
  - unfold bind. rewrite getModelStatus_eq. reflexivity.
Qed.

(** X19. A manager that holds a session keeps holding one through
    [loadModel], [initialize] and [retryLoadModel], whether or not the new
    attempt succeeds: a failed reload never takes the model out of
    service. *)
Theorem loaded_session_is_never_dropped env k w s :
  sessionONNX (this w) = Some s →
  is_Some (sessionONNX (this (loadModel env k w).2))
  ∧ is_Some (sessionONNX (this (initialize env k w).2))
  ∧ is_Some (sessionONNX (this (retryLoadModel env k w).2)).
Proof.
  intros Hs.
  assert (Hload : ∀ w0, sessionONNX (this w0) = Some s →
                        is_Some (sessionONNX (this (loadModel env k w0).2))).
  { intros w0 Hs0. destruct (loadModel_session env k w0) as [(s' & -> & _)| ->]; eauto. }
  split; [exact (Hload w Hs)|]. split.
  - destruct (initialize_eq env k w) as (o & _ & ->). cbn [snd].
    apply Hload. rewrite make_cache_dir_files. exact Hs.
  - rewrite retryLoadModel_world. destruct (_ <? _)%N; [exact (Hload w Hs)|].
    rewrite Hs. eauto.
Qed.

Lemma loaded_session_is_never_dropped_witness :
  is_Some (sessionONNX (this (loadModel (Examples.offline []) Detached
                                (Examples.serving [decimal 9 10])).2)).
Proof.
  destruct (loaded_session_is_never_dropped (Examples.offline []) Detached
              (Examples.serving [decimal 9 10])
              (Examples.session_answering [decimal 9 10]) eq_refl)
    as (Hload & _ & _).
  exact Hload.
Defined.

(** X20. [predict] gives the default answer without an error message
    exactly when no session is loaded, that is when the status says
    [isLoaded: false]; with a session, a default answer always carries the
    message of what went wrong. *)
Theorem predict_silent_default env path w r w' :
  predict env path w = (inr r, w') →
  (usingDefaultPrediction r = true ∧ error r = None)
  ↔ st_isLoaded (status_of w) = false.
Proof.
  intros Hp. unfold status_of. cbn [st_isLoaded].
  destruct (sessionONNX (this w)) as [s|] eqn:Hs.
  - split.
    + intros [Hdef Herr]. exfalso.
      destruct (predict_try env path w) as [[e|r0] w1] eqn:Htry.
      * rewrite (predict_catches env path w e w1 Htry) in Hp.
        apply (f_equal fst) in Hp. cbn [fst] in Hp. apply (inj inr) in Hp. subst r.
        discriminate.
      * rewrite (predict_passes env path w r0 w1 Htry) in Hp.
        apply (f_equal fst) in Hp. cbn [fst] in Hp. apply (inj inr) in Hp. subst r0.
        destruct (predict_try_result env path w r w1 Htry) as [[Hn _]|[outputTensor ->]].
        -- congruence.
        -- unfold model_result in Hdef.
           destruct (interpret _) in Hdef. discriminate.
    + intros Hf. apply bool_decide_eq_false in Hf. exfalso. apply Hf. eauto.
  - rewrite (predict_no_session env path w Hs) in Hp.
    apply (f_equal fst) in Hp. cbn [fst] in Hp. apply (inj inr) in Hp. subst r.
    split; [intros _|intros _; split; reflexivity].
    apply bool_decide_eq_false. intros [x Hx]. discriminate.
Qed.

Lemma predict_silent_default_witness :
  st_isLoaded (status_of Examples.fresh) = false.
Proof.
  apply (predict_silent_default (Examples.offline []) "eye.jpg" Examples.fresh
           (default_prediction None) Examples.fresh).
  - reflexivity.
  - split; reflexivity.
Defined.

(* ===================================================================== *)
(** ** Further properties: the event loop *)
(* ===================================================================== *)

Lemma resume_world k w infl cs :
  world (resume k w infl cs) = w ∧ inflight (resume k w infl cs) = infl.
Proof. destruct k as [c|]; [rewrite resume_status|]; split; reflexivity. Qed.

Lemma count_retry_poll tm t k :
  count_timers is_retry (tm ++ [(t, CbCheckLoading k)]) = count_timers is_retry tm.
Proof. rewrite count_timers_app. cbn. lia. Qed.

Lemma count_retry_more tm t :
  count_timers is_retry (tm ++ [(t, CbLoadModel)]) = count_timers is_retry tm + 1.
Proof. rewrite count_timers_app. reflexivity. Qed.

Lemma ceiling_complete env l l' :
  within_ceiling l → exec env Complete l = Some l' → within_ceiling l'.
Proof.
  intros (Hle & Hin). cbn [exec]. destruct (inflight l) as [k|]; [|discriminate].
  destruct Hin as (Hflag & Hcount).
  destruct (loadModel_attempt_spec env (world l)) as (r & w' & -> & Hpost).
  intros [= <-]. unfold within_ceiling.
  destruct (resume_world k w' None (callers l)) as (-> & ->).
  pose proof (attempt_post_fields _ _ _ Hpost)
    as (_ & _ & _ & _ & Hatt & Hmax & Hdown & _).
  rewrite Hatt, Hmax, Hdown. split; [exact Hle|]. split; [reflexivity|].
  destruct r as [s|]; destruct Hpost as (_ & _ & Htm); rewrite Htm.
  - rewrite Hcount. split; [lia|discriminate].
  - destruct (N.ltb_spec (modelLoadAttempts (this (world l)))
                         (maxLoadAttempts (this (world l)))) as [Hlt|Hge].
    + rewrite count_retry_more, Hcount. split; [lia|]. intros _. exact Hlt.
    + rewrite Hcount. split; [lia|discriminate].
Qed.

Lemma ceiling_tick env t l l' :
  within_ceiling l → exec env (Tick t) l = Some l' → within_ceiling l'.
Proof.
  intros H. cbn [exec]. destruct (_ && _); [|discriminate]. intros [= <-]. exact H.
Qed.

Lemma ceiling_fire env i l l' :
  within_ceiling l → exec env (Fire i) l = Some l' → within_ceiling l'.
Proof.
  intros (Hle & Hin). cbn [exec].
  destruct (timers (world l) !! i) as [[d cb]|] eqn:Hi; [|discriminate].
  destruct (d <=? now (world l))%N; [|discriminate].
  pose proof (count_timers_delete is_retry _ _ _ Hi) as Hcount.
  destruct cb as [|k].
  - cbn [is_retry snd] in Hcount.
    destruct (inflight l) as [k0|] eqn:Hk0; [destruct Hin as (_ & Hzero); lia|].
    destruct Hin as (Hflag & Hone & Hlt).
    rewrite (loadModel_enter_idle Detached (drop_timer i (world l)) Hflag).
    cbn [after_enter]. intros [= <-]. unfold within_ceiling.
    cbn [world inflight begun this timers drop_timer modelLoadAttempts maxLoadAttempts
         isLoading set_isLoading incr_modelLoadAttempts].
    split; [|split; [reflexivity|lia]].
    assert (modelLoadAttempts (this (world l)) < maxLoadAttempts (this (world l)))%N
      by (apply Hlt; lia).
    lia.
  - cbn [is_retry snd] in Hcount. rewrite Nat.add_0_l in Hcount.
    destruct (isLoading (this (world l))) eqn:Hflag.
    + rewrite (checkLoading_busy k (drop_timer i (world l)) Hflag).
      intros [= <-]. unfold within_ceiling.
      cbn [world inflight this timers drop_timer now].
      rewrite count_retry_poll, <- Hcount, Hflag.
      split; [exact Hle|exact Hin].
    + rewrite (checkLoading_idle k (drop_timer i (world l)) Hflag).
      intros [= <-]. unfold within_ceiling.
      destruct (resume_world k (drop_timer i (world l)) (inflight l) (callers l))
        as (-> & ->).
      cbn [this timers drop_timer]. rewrite <- Hcount, Hflag.
      split; [exact Hle|exact Hin].
Qed.

Lemma ceiling_run env acts : ∀ l l',
  within_ceiling l →
  forallb (λ a, negb (is_call a)) acts = true →
  run_loop env acts l = Some l' →
  within_ceiling l'.
Proof.
  induction acts as [|a acts IH]; intros l l' Hinv Hacts Hrun.
  - injection Hrun as <-. exact Hinv.
  - cbn [forallb] in Hacts. apply andb_true_iff in Hacts as [Ha Hacts].
    cbn [run_loop] in Hrun. destruct (exec env a l) as [l1|] eqn:Hexec; [|discriminate].
    apply (IH l1 l'); [|exact Hacts|exact Hrun].
    destruct a as [c e| |t|i]; [discriminate| | |].
    + exact (ceiling_complete env l l1 Hinv Hexec).
    + exact (ceiling_tick env t l l1 Hinv Hexec).
    + exact (ceiling_fire env i l l1 Hinv Hexec).
Qed.

(** X21. After one call of [initialize] on a manager that is idle, has
    attempts left and no retry pending, and with no further caller, the
    timers alone never take the attempt counter above [maxAttempts], and
    at most one retry is pending at any time, whatever the outcome of
    each attempt and whatever the order of the events. *)
Theorem retries_stay_within_maximum env c acts w cs l' :
  isLoading (this w) = false →
  (modelLoadAttempts (this w) < maxLoadAttempts (this w))%N →
  count_timers is_retry (timers w) = 0 →
  forallb (λ a, negb (is_call a)) acts = true →
  run_loop env (Call c ViaInitialize :: acts) (mkLoop w None cs) = Some l' →
  (modelLoadAttempts (this (world l')) ≤ maxLoadAttempts (this (world l')))%N
  ∧ count_timers is_retry (timers (world l')) ≤ 1.
Proof.
  intros Hidle Hlt Hzero Hacts Hrun. cbn [run_loop] in Hrun.
  destruct (exec env (Call c ViaInitialize) (mkLoop w None cs)) as [l1|] eqn:Hexec;
    [|discriminate].
  assert (Hinv : within_ceiling l1).
  { revert Hexec. cbn [exec callers world inflight].
    destruct (cs !! c); [discriminate|].
    destruct (make_cache_dir_quiet w) as (w0 & Hmk & (Hthis & Hnow & Htm) & _).
    unfold bind at 1. rewrite Hmk.
    rewrite (loadModel_enter_idle (StatusFor c) w0) by (rewrite Hthis; exact Hidle).
    cbn [after_enter]. intros [= <-]. unfold within_ceiling.
    cbn [world inflight begun this timers modelLoadAttempts maxLoadAttempts
         isLoading set_isLoading incr_modelLoadAttempts].
    rewrite Hthis, Htm. split; [lia|]. split; [reflexivity|exact Hzero]. }
  pose proof (ceiling_run env acts l1 l' Hinv Hacts Hrun) as (Hle & Hin).
  split; [exact Hle|].
  destruct (inflight l'); [destruct Hin as (_ & ->); lia|].
  destruct Hin as (_ & Hone & _). exact Hone.
Qed.

Lemma retries_stay_within_maximum_witness :
  ∃ l',
    run_loop FlightExamples.down
      [Call 0 ViaInitialize; Complete; Tick 3000; Fire 0; Complete;
       Tick 6000; Fire 0; Complete]
      FlightExamples.boot = Some l'
    ∧ modelLoadAttempts (this (world l')) = 3%N
    ∧ (modelLoadAttempts (this (world l')) ≤ maxLoadAttempts (this (world l')))%N.
Proof.
  destruct (run_loop FlightExamples.down
              [Call 0 ViaInitialize; Complete; Tick 3000; Fire 0; Complete;
               Tick 6000; Fire 0; Complete]
              FlightExamples.boot) as [l'|] eqn:Hrun; [|vm_compute in Hrun; discriminate].
  exists l'. split; [reflexivity|].
  split.
  - vm_compute in Hrun. injection Hrun as <-. reflexivity.
  - apply (retries_stay_within_maximum FlightExamples.down 0
             [Complete; Tick 3000; Fire 0; Complete; Tick 6000; Fire 0; Complete]
             Examples.fresh ∅ l').
    + reflexivity.
    + reflexivity.
    + reflexivity.
    + reflexivity.
    + exact Hrun.
Defined.

(** *** What a caller of [initialize] is handed *)

Lemma no_loading_park k s l w infl :
  no_loading_status l →
  (∀ st, s ≠ Returned st) →
  no_loading_status (mkLoop w infl (park k s (callers l))).
Proof.
  intros Hinv Hs c st. cbn [callers]. destruct k as [c0|]; cbn [park]; [|apply Hinv].
  destruct (decide (c = c0)) as [-> | Hne].
  - rewrite lookup_insert_eq. intros [= ->]. exfalso. exact (Hs st eq_refl).
  - rewrite lookup_insert_ne by congruence. apply Hinv.
Qed.

Lemma no_loading_resume k l w infl :
  no_loading_status l →
  isLoading (this w) = false →
  no_loading_status (resume k w infl (callers l)).
Proof.
  intros Hinv Hflag c st. destruct k as [c0|]; [|apply Hinv].
  rewrite resume_status. cbn [callers].
  destruct (decide (c = c0)) as [-> | Hne].
  - rewrite lookup_insert_eq. intros [= <-]. exact Hflag.
  - rewrite lookup_insert_ne by congruence. apply Hinv.
Qed.

Lemma no_loading_enter k l w :
  no_loading_status l →
  no_loading_status (after_enter k (loadModel_enter k w) (inflight l) (callers l)).
Proof.
  intros Hinv. destruct (isLoading (this w)) eqn:Hflag.
  - rewrite (loadModel_enter_busy k w Hflag). cbn [after_enter].
    apply no_loading_park; [exact Hinv|discriminate].
  - rewrite (loadModel_enter_idle k w Hflag). cbn [after_enter].
    apply no_loading_park; [exact Hinv|discriminate].
Qed.

Lemma no_loading_step env a l l' :
  no_loading_status l →
  calls_initialize_only a = true →
  exec env a l = Some l' →
  no_loading_status l'.
Proof.
  intros Hinv Ha. destruct a as [c [|]| |t|i]; [|discriminate| | |]; cbn [exec].
  - destruct (callers l !! c); [discriminate|].
    destruct (make_cache_dir_quiet (world l)) as (w0 & Hmk & _).
    unfold bind at 1. rewrite Hmk. intros [= <-].
    exact (no_loading_enter (StatusFor c) l w0 Hinv).
  - destruct (inflight l) as [k|]; [|discriminate].
    destruct (loadModel_attempt_spec env (world l)) as (r & w' & -> & Hpost).
    intros [= <-]. apply no_loading_resume; [exact Hinv|].
    apply attempt_post_fields in Hpost as (_ & _ & _ & _ & _ & _ & Hdown & _).
    exact Hdown.
  - destruct (_ && _); [|discriminate]. intros [= <-]. exact Hinv.
  - destruct (timers (world l) !! i) as [[d cb]|]; [|discriminate].
    destruct (d <=? now (world l))%N; [|discriminate].
    destruct cb as [|k].
    + intros [= <-]. exact (no_loading_enter Detached l _ Hinv).
    + destruct (isLoading (this (world l))) eqn:Hflag.
      * rewrite (checkLoading_busy k (drop_timer i (world l)) Hflag).
        intros [= <-]. exact Hinv.
      * rewrite (checkLoading_idle k (drop_timer i (world l)) Hflag).
        intros [= <-]. apply no_loading_resume; [exact Hinv|exact Hflag].
Qed.

(** X22. However many callers enter [initialize], and however their
    calls interleave with completions and timers, none of them is ever
    handed a status that says [isLoading: true]: a caller returns only
    after a moment at which no attempt is under way. *)
Theorem initialize_never_returns_while_loading env acts : ∀ l l',
  callers l = ∅ →
  forallb calls_initialize_only acts = true →
  run_loop env acts l = Some l' →
  ∀ c st, observed c l' = Some st → st_isLoading st = false.
Proof.
  assert (Hrun : ∀ l l', no_loading_status l →
                         forallb calls_initialize_only acts = true →
                         run_loop env acts l = Some l' → no_loading_status l').
  { induction acts as [|a acts IH]; intros l l' Hinv Hacts Hrun.
    - injection Hrun as <-. exact Hinv.
    - cbn [forallb] in Hacts. apply andb_true_iff in Hacts as [Ha Hacts].
      cbn [run_loop] in Hrun.
      destruct (exec env a l) as [l1|] eqn:Hexec; [|discriminate].
      exact (IH l1 l' (no_loading_step env a l l1 Hinv Ha Hexec) Hacts Hrun). }
  intros l l' Hempty Hacts Hl' c st Hobs.
  apply (Hrun l l') with (c := c); [|exact Hacts|exact Hl'|].
  - intros c0 st0. rewrite Hempty, lookup_empty. discriminate.
  - unfold observed in Hobs.
    destruct (callers l' !! c) as [[| |st']|]; try discriminate.
    injection Hobs as ->. reflexivity.
Qed.

Lemma initialize_never_returns_while_loading_witness :
  ∃ l',
    run_loop FlightExamples.down (FlightExamples.arrivals ++ FlightExamples.overshoot)
      FlightExamples.boot = Some l'
    ∧ is_Some (observed 2 l')
    ∧ ∀ c st, observed c l' = Some st → st_isLoading st = false.
Proof.
  destruct (run_loop FlightExamples.down
              (FlightExamples.arrivals ++ FlightExamples.overshoot)
              FlightExamples.boot) as [l'|] eqn:Hrun; [|vm_compute in Hrun; discriminate].
  exists l'. split; [reflexivity|]. split.
  - vm_compute in Hrun. injection Hrun as <-. vm_compute. eauto.
  - apply (initialize_never_returns_while_loading FlightExamples.down
             (FlightExamples.arrivals ++ FlightExamples.overshoot)
             FlightExamples.boot l').
    + reflexivity.
    + reflexivity.
    + exact Hrun.
Defined.

(** *** What the answer of [predict] depends on *)

Lemma preprocessImage_uniform env path :
  ∃ r tr, ∀ w, preprocessImage env path w = (r, with_trace w (trace w ++ tr)).
Proof.
  destruct (sharp_metadata env path) as [e|u] eqn:Hmeta.
  { eexists _, [_]. intros w. unfold preprocessImage. unfold_M.
    cbn [this files now timers trace]. rewrite Hmeta. reflexivity. }
  destruct (sharp_raw env path) as [e|buffer] eqn:Hraw.
  { eexists _, [_; _]. intros w. unfold preprocessImage. unfold_M.
    cbn [this files now timers trace]. rewrite Hmeta, Hraw.
    rewrite <- app_assoc. reflexivity. }
  destruct (negb (length buffer =? 224 * 224 * 3)) eqn:Hsize.
  all: eexists _, [_; _]; intros w; unfold preprocessImage; unfold_M;
    cbn [this files now timers trace]; rewrite Hmeta, Hraw, Hsize;
    rewrite <- app_assoc; reflexivity.
Qed.

(** X23. The answer of [predict] is a function of the session held, of
    what lies at the cache path and at the fallback path, and of what
    sharp and the session answer.  It does not depend on [isLoading], on
    the attempt counter, on the clock or on the timers: while a reload is
    under way, [predict] answers as before. *)
Theorem predict_depends_on env path w w2 :
  sessionONNX (this w2) = sessionONNX (this w) →
  source_tag (files w2) (cachedModelPath (this w2)) (localModelPath (this w2))
    = source_tag (files w) (cachedModelPath (this w)) (localModelPath (this w)) →
  (predict env path w2).1 = (predict env path w).1.
Proof.
  intros Hsess Htag. destruct (sessionONNX (this w)) as [s|] eqn:Hs.
  - unfold predict, try_catch.
    rewrite (predict_try_stages env path w s Hs),
            (predict_try_stages env path w2 s Hsess).
    destruct (preprocessImage_uniform env path) as (r & tr & Hpre).
    rewrite (Hpre w), (Hpre w2). unfold after_preprocess.
    destruct r as [e|tensor]; [reflexivity|].
    destruct (existsb _ (t_data tensor)); [reflexivity|].
    destruct (run s _) as [e|results]; [reflexivity|].
    destruct (list_find _ results) as [[j [name outputTensor]]|]; [|reflexivity].
    unfold model_result, with_trace. cbn [fst this files]. rewrite Htag. reflexivity.
  - rewrite (predict_no_session env path w Hs), (predict_no_session env path w2 Hsess).
    reflexivity.
Qed.

Lemma predict_depends_on_witness :
  (predict (Examples.offline []) "eye.jpg"
     (mkWorld (set_isLoading true
                 (incr_modelLoadAttempts (this (Examples.serving [decimal 9 10]))))
              ∅ 2950 [(3000%N, CbLoadModel)] [])).1
  = (predict (Examples.offline []) "eye.jpg" (Examples.serving [decimal 9 10])).1.
Proof.
  apply (predict_depends_on (Examples.offline []) "eye.jpg"
           (Examples.serving [decimal 9 10])).
  - reflexivity.
  - reflexivity.
Defined.
